(** * dpkg-builder: a shallow embedding of the fetch / classify / download /
      extract pipeline, and the properties its specification states.

    The development follows the three source files of the repository:
    the first iteration ([cmd/dpkg-builder/main.go]), the intermediate one
    with [filterLinks] and [download], and the final one built around the
    [dpkgSrc] struct.  Go strings are byte strings ([string]), Go [int]s
    that can be negative are [Z], the file system is a finite map from
    path names to nodes, and everything that touches the outside world
    (log, HTTP, file system, subprocess) runs in a small state-and-fatal
    monad that records a trace of events. *)

From stdpp Require Import gmap strings list.
From Stdlib Require Import Ascii String ZArith Lia Bool.

Open Scope string_scope.

(* stdpp freezes [String.append] under [simpl]; the proofs below compute
   with it. *)
#[local] Arguments String.append _ _ : simpl nomatch.

(** ** Go's [strings] package, the part the program uses *)

Module strings.

(** [s[i:]] for [0 <= i <= len(s)]. *)
Definition slice_from (s : string) (i : nat) : string :=
  substring i (String.length s - i) s.

(** [s[:i]] for [0 <= i <= len(s)]. *)
Definition slice_to (s : string) (i : nat) : string :=
  substring 0 i s.

(** [len(s) >= len(suffix) && s[len(s)-len(suffix):] == suffix] *)
Definition HasSuffix (s suffix : string) : bool :=
  (String.length suffix <=? String.length s)%nat
  && (slice_from s (String.length s - String.length suffix) =? suffix).

(** [len(s) >= len(prefix) && s[:len(prefix)] == prefix] *)
Definition HasPrefix (s prefix : string) : bool :=
  (String.length prefix <=? String.length s)%nat
  && (slice_to s (String.length prefix) =? prefix).

(** Index of the last instance of [substr] in [s], [-1] when there is
    none; [pos] is the index of the first byte of [s] in the whole
    string. *)
Fixpoint LastIndex_at (pos : Z) (s substr : string) : Z :=
  match s with
  | EmptyString => if substr =? "" then pos else (-1)%Z
  | String _ s' =>
      let r := LastIndex_at (pos + 1) s' substr in
      if (0 <=? r)%Z then r
      else if String.prefix substr s then pos else (-1)%Z
  end.

Definition LastIndex (s substr : string) : Z := LastIndex_at 0 s substr.

(** Index of the first instance, [-1] when there is none. *)
Definition Index (s substr : string) : Z :=
  match String.index 0 substr s with
  | Some n => Z.of_nat n
  | None => (-1)%Z
  end.

Definition Contains (s substr : string) : bool := (0 <=? Index s substr)%Z.

(** [Join(elems, sep)]: the elements with [sep] between them. *)
Fixpoint Join (elems : list string) (sep : string) : string :=
  match elems with
  | [] => ""
  | [e] => e
  | e :: rest => e ++ sep ++ Join rest sep
  end.

(** [Cut(s, sep)]: the text before and after the first [sep], and
    whether [sep] was found. *)
Definition Cut (s sep : string) : string * string * bool :=
  match String.index 0 sep s with
  | Some i => (slice_to s i, slice_from s (i + String.length sep), true)
  | None => (s, "", false)
  end.

(** [Split(s, "/")]: the substrings between the slashes. *)
Fixpoint Split_slash (s : string) : list string :=
  match s with
  | EmptyString => [""]
  | String c s' =>
      if Ascii.eqb c "/" then "" :: Split_slash s'
      else match Split_slash s' with
           | h :: t => String c h :: t
           | [] => [String c ""]
           end
  end.

End strings.

(** ** The URL value of Go's [net/url]

    Only the fields the program reads, or that decide what it reads, are
    kept: [Scheme] (for [IsAbs]), [Path] (for [buildPath]) and the parts
    that [String] prints. *)

Record URL : Type := mkURL {
  Scheme : string;
  Opaque : string;
  Host : string;
  Path : string;
  RawQuery : string;
  Fragment : string
}.

(** [func (u *URL) IsAbs() bool { return u.Scheme != "" }] *)
Definition IsAbs (u : URL) : bool := negb (Scheme u =? "").

(** ** The package source record *)

(** [BaseURL] is a pointer in the source; [None] is [nil]. *)
Record dpkgSrc : Type := mkDpkgSrc {
  Name : string;
  DSC : string;
  Orig : string;
  Debian : string;
  BaseURL : option URL;
  DscPath : string
}.

(** [new(dpkgSrc)]: every field at its zero value. *)
Definition new_dpkgSrc : dpkgSrc := mkDpkgSrc "" "" "" "" None "".

Definition set_Name (v : string) (d : dpkgSrc) : dpkgSrc :=
  mkDpkgSrc v (DSC d) (Orig d) (Debian d) (BaseURL d) (DscPath d).
Definition set_DSC (v : string) (d : dpkgSrc) : dpkgSrc :=
  mkDpkgSrc (Name d) v (Orig d) (Debian d) (BaseURL d) (DscPath d).
Definition set_Orig (v : string) (d : dpkgSrc) : dpkgSrc :=
  mkDpkgSrc (Name d) (DSC d) v (Debian d) (BaseURL d) (DscPath d).
Definition set_Debian (v : string) (d : dpkgSrc) : dpkgSrc :=
  mkDpkgSrc (Name d) (DSC d) (Orig d) v (BaseURL d) (DscPath d).
Definition set_BaseURL (v : option URL) (d : dpkgSrc) : dpkgSrc :=
  mkDpkgSrc (Name d) (DSC d) (Orig d) (Debian d) v (DscPath d).
Definition set_DscPath (v : string) (d : dpkgSrc) : dpkgSrc :=
  mkDpkgSrc (Name d) (DSC d) (Orig d) (Debian d) (BaseURL d) v.

(** ** The classifier, final version *)

(** The body of the [for ... range links] loop of [fillFromLinks]: a
    [switch] with no tag runs the first case whose condition holds. *)
Definition fillFromLinks_body (d : dpkgSrc) (l : string) : dpkgSrc :=
  if strings.HasSuffix l ".dsc" then set_DSC l d
  else if strings.HasSuffix l ".orig.tar.xz" || strings.HasSuffix l ".orig.tar.gz"
       then set_Orig l d
  else if strings.HasSuffix l ".debian.tar.xz" then set_Debian l d
  else d.

Fixpoint fillFromLinks (d : dpkgSrc) (links : list string) : dpkgSrc :=
  match links with
  | [] => d
  | l :: rest => fillFromLinks (fillFromLinks_body d l) rest
  end.

(** ** The link filter of the intermediate version

    [filteredLinks] starts as the nil slice and grows by [append]. *)
Fixpoint filterLinks_loop (filteredLinks links : list string) : list string :=
  match links with
  | [] => filteredLinks
  | l :: rest =>
      if strings.HasSuffix l ".dsc"
      then filterLinks_loop (filteredLinks ++ [l]) rest
      else if strings.HasSuffix l ".orig.tar.xz" || strings.HasSuffix l ".orig.tar.gz"
      then filterLinks_loop (filteredLinks ++ [l]) rest
      else if strings.HasSuffix l ".debian.tar.xz"
      then filterLinks_loop (filteredLinks ++ [l]) rest
      else filterLinks_loop filteredLinks rest
  end.

Definition filterLinks (links : list string) : list string :=
  filterLinks_loop [] links.

(** The link filter of the first version ([cmd/dpkg-builder/main.go]): it
    does not know [.orig.tar.gz] yet. *)
Fixpoint filterLinks_v1_loop (filteredLinks links : list string) : list string :=
  match links with
  | [] => filteredLinks
  | l :: rest =>
      if strings.HasSuffix l ".dsc"
      then filterLinks_v1_loop (filteredLinks ++ [l]) rest
      else if strings.HasSuffix l ".orig.tar.xz"
      then filterLinks_v1_loop (filteredLinks ++ [l]) rest
      else if strings.HasSuffix l ".debian.tar.xz"
      then filterLinks_v1_loop (filteredLinks ++ [l]) rest
      else filterLinks_v1_loop filteredLinks rest
  end.

Definition filterLinks_v1 (links : list string) : list string :=
  filterLinks_v1_loop [] links.

(** ** The three roles, as the specification words them *)

Inductive Role : Type := Description | Original | DebianDiff.

Definition role_href (r : Role) (d : dpkgSrc) : string :=
  match r with
  | Description => DSC d
  | Original => Orig d
  | DebianDiff => Debian d
  end.

(** A role is absent when its field still holds the zero value. *)
Definition absent (r : Role) (d : dpkgSrc) : Prop := role_href r d = "".

(** [s] ends with [suffix]. *)
Definition ends_with (s suffix : string) : Prop := ∃ p, s = p ++ suffix.

(** The suffix rules, each on its own and without precedence. *)
Inductive rule : Role → string → Prop :=
  | rule_dsc l : ends_with l ".dsc" → rule Description l
  | rule_orig_xz l : ends_with l ".orig.tar.xz" → rule Original l
  | rule_orig_gz l : ends_with l ".orig.tar.gz" → rule Original l
  | rule_debian l : ends_with l ".debian.tar.xz" → rule DebianDiff l.

(** The same rules as a decision procedure, for the statements that
    filter a list by role. *)
Definition matches (r : Role) (l : string) : bool :=
  match r with
  | Description => strings.HasSuffix l ".dsc"
  | Original => strings.HasSuffix l ".orig.tar.xz" || strings.HasSuffix l ".orig.tar.gz"
  | DebianDiff => strings.HasSuffix l ".debian.tar.xz"
  end.

(** ** Go's [path/filepath] on a Unix target, the part the program uses *)

Module filepath.

(** [Separator] is ['/'], so [FromSlash] returns its argument. *)
Definition FromSlash (path : string) : string := path.

(** One path element read by [Clean]; [out] is the stack of elements
    written so far, innermost first. *)
Definition Clean_step (rooted : bool) (out : list string) (e : string)
  : list string :=
  if e =? "" then out
  else if e =? "." then out
  else if e =? ".." then
    match out with
    | top :: rest => if top =? ".." then ".." :: out else rest
    | [] => if rooted then [] else [".."]
    end
  else e :: out.

(** [Clean]: the shortest path name equivalent to [path] by purely
    lexical processing. *)
Definition Clean (path : string) : string :=
  if path =? "" then "."
  else
    let rooted := String.prefix "/" path in
    let out := fold_left (Clean_step rooted) (strings.Split_slash path) [] in
    let body := strings.Join (rev out) "/" in
    if rooted then "/" ++ body
    else if body =? "" then "." else body.

(** [Join]: the first non-empty element onwards, joined by the
    separator and cleaned; empty when every element is empty. *)
Fixpoint Join (elem : list string) : string :=
  match elem with
  | [] => ""
  | e :: rest => if e =? "" then Join rest else Clean (strings.Join elem "/")
  end.

(** [Split]: the path up to and including the final separator, and the
    file name after it. *)
Definition Split (path : string) : string * string :=
  let i := strings.LastIndex path "/" in
  (strings.slice_to path (Z.to_nat (i + 1)),
   strings.slice_from path (Z.to_nat (i + 1))).

End filepath.

(** ** The libraries the program calls but does not define *)

(** Go's [net/url]: [Parse] fails with an error text or returns a URL,
    [ResolveReference u ref] resolves [ref] against the base [u],
    [URL_String] is the [String] method of a URL and [PathEscape] escapes
    one path segment. *)
Class NetURL : Type := {
  Parse : string → string + URL;
  ResolveReference : URL → URL → URL;
  URL_String : URL → string;
  PathEscape : string → string
}.

(** The tokens of [golang.org/x/net/html]. *)
Inductive TokenType : Type :=
  | ErrorToken | TextToken | StartTagToken | EndTagToken
  | SelfClosingTagToken | CommentToken | DoctypeToken.

Record Attribute : Type := mkAttribute { Key : string; Val : string }.

Record Token : Type := mkToken {
  Type_ : TokenType;
  Data : string;
  Attr : list Attribute
}.

(** The tokens that successive calls of [Next] return on a document. *)
Class HTMLTokenizer : Type := {
  tokens_of : string → list Token
}.

(** ** The outside world *)

Inductive Node : Type := Dir | File (content : string).

(** What the process does that can be observed from outside, in order. *)
Inductive Event : Type :=
  | EvLog (msg : string)
  | EvGet (url : string)
  | EvMkdir (dir : string)
  | EvCreate (path : string)
  | EvExec (dir : string) (argv : list string).

(** An HTTP response: the bytes of the body that arrive, and the read
    error that ends the body early, if any. *)
Record Response : Type := mkResponse {
  Body : string;
  ReadErr : option string
}.

(** A run of a subprocess: whether it starts, the lines it prints, and
    the error [Wait] reports, if any. *)
Record Run : Type := mkRun {
  StartErr : option string;
  Stdout : list string;
  WaitErr : option string
}.

Record State : Type := mkState {
  fs : gmap string Node;
  trace : list Event
}.

(** The answers of the environment: the network, the permissions of the
    file system and the external tool. *)
Class Env : Type := {
  http : string → string + Response;
  mkdir_err : string → option string;
  create_err : string → option string;
  tool : gmap string Node → string → list string → Run
}.

(** [log.Fatalf] ends the process: a computation either returns a value
    or dies with a message, and in both cases leaves a state behind. *)
Inductive Outcome (A : Type) : Type :=
  | Ok (a : A) (st : State)
  | Fatal (msg : string) (st : State).
Arguments Ok {A} a st.
Arguments Fatal {A} msg st.

Definition M (A : Type) : Type := State → Outcome A.

Definition ret {A} (a : A) : M A := fun st => Ok a st.

Definition bind {A B} (m : M A) (k : A → M B) : M B :=
  fun st =>
    match m st with
    | Ok a st' => k a st'
    | Fatal msg st' => Fatal msg st'
    end.

Notation "'do' x <- m ; k" := (bind m (fun x => k))
  (at level 10, x name, m at level 100, k at level 200).
Notation "'run' m ; k" := (bind m (fun _ => k))
  (at level 10, m at level 100, k at level 200).

Definition log_Fatalf {A} (msg : string) : M A := fun st => Fatal msg st.

Definition emit (e : Event) : M unit :=
  fun st => Ok tt (mkState (fs st) (trace st ++ [e])).

Definition log_Print (msg : string) : M unit := emit (EvLog msg).

Definition final_state {A} (o : Outcome A) : State :=
  match o with
  | Ok _ st => st
  | Fatal _ st => st
  end.

(** The network fetches in a trace. *)
Definition gets (t : list Event) : list string :=
  omap (fun e => match e with EvGet u => Some u | _ => None end) t.

Definition execs (t : list Event) : list (string * list string) :=
  omap (fun e => match e with EvExec d a => Some (d, a) | _ => None end) t.

Definition logs (t : list Event) : list string :=
  omap (fun e => match e with EvLog m => Some m | _ => None end) t.

(** [cli.Context], reduced to the arguments after the subcommand. *)
Record Context : Type := mkContext { Args : list string }.

Definition NArg (c : Context) : nat := List.length (Args c).

Definition debianTestingBaseURL : string := "https://packages.debian.org/buster/".

Section Program.

Context `{!NetURL, !HTMLTokenizer, !Env}.

(** *** Operating-system calls *)

(** [os.Stat] succeeds on files and directories alike; on a name that
    is not there it fails with an [IsNotExist] error. *)
Definition os_Stat (name : string) : M (option Node) :=
  fun st => Ok (fs st !! name) st.

Definition os_Mkdir (dir : string) : M (option string) :=
  run emit (EvMkdir dir) ;
  fun st =>
    match mkdir_err dir with
    | Some e => Ok (Some e) st
    | None => Ok None (mkState (<[dir := Dir]> (fs st)) (trace st))
    end.

(** [os.Create] makes the file, or truncates it. *)
Definition os_Create (path : string) : M (option string) :=
  run emit (EvCreate path) ;
  fun st =>
    match create_err path with
    | Some e => Ok (Some e) st
    | None => Ok None (mkState (<[path := File ""]> (fs st)) (trace st))
    end.

Definition http_Get (url : string) : M (string + Response) :=
  run emit (EvGet url) ; ret (http url).

(** [io.Copy(file, resp.Body)]: the bytes that arrive are written, then
    the read error, if any, is returned. *)
Definition io_Copy (path : string) (resp : Response) : M (option string) :=
  fun st => Ok (ReadErr resp)
               (mkState (<[path := File (Body resp)]> (fs st)) (trace st)).

(** *** [ensureDirExists], [fileExists], [buildPath], [download] *)

Definition ensureDirExists (dir : string) : M unit :=
  do r <- os_Stat dir ;
  match r with
  | None =>
      do err <- os_Mkdir dir ;
      match err with
      | Some e => log_Fatalf ("Error creating directory " ++ dir ++ ": " ++ e)
      | None => ret tt
      end
  | Some _ => ret tt
  end.

Definition fileExists (file : string) : M bool :=
  do r <- os_Stat file ;
  ret (match r with Some _ => true | None => false end).

(** Returns [(path, parentDir)]. *)
Definition buildPath (u : URL) (pkg : string) : string * string :=
  let i := strings.LastIndex (Path u) "/" in
  let parentDir := filepath.FromSlash pkg in
  let path :=
    filepath.Join
      [parentDir;
       filepath.FromSlash (strings.slice_from (Path u) (Z.to_nat (i + 1)))] in
  (path, parentDir).

Definition download (u : URL) (pkgName : string) : M string :=
  let '(path, dir) := buildPath u pkgName in
  run log_Print ("Downloading " ++ URL_String u ++ " to " ++ path ++ "...") ;
  run ensureDirExists dir ;
  do ex <- fileExists path ;
  if ex then
    run log_Print "File already exists, skipping." ;
    ret path
  else
    do err <- os_Create path ;
    match err with
    | Some e => log_Fatalf ("Error creating file " ++ path ++ ": " ++ e)
    | None =>
        do r <- http_Get (URL_String u) ;
        match r with
        | inl e => log_Fatalf ("Error downloading file " ++ URL_String u ++ ": " ++ e)
        | inr resp =>
            do err <- io_Copy path resp ;
            match err with
            | Some e =>
                log_Fatalf ("Error downloading file " ++ URL_String u
                            ++ " to " ++ path ++ ": " ++ e)
            | None => ret path
            end
        end
    end.

(** *** [fetch] *)

(** The URL that [fetch] hands to [download] for the href [l]. *)
Definition linkURL_of (d : dpkgSrc) (l : string) : M URL :=
  match Parse l with
  | inl e => log_Fatalf ("Error parsing URL " ++ l ++ ": " ++ e)
  | inr linkURL =>
      if negb (IsAbs linkURL) then
        match BaseURL d with
        | Some base => ret (ResolveReference base linkURL)
        | None => log_Fatalf "panic: invalid memory address or nil pointer dereference"
        end
      else ret linkURL
  end.

(** The body of the loop of [fetch]. *)
Definition fetch_body (d : dpkgSrc) (l : string) : M dpkgSrc :=
  do linkURL <- linkURL_of d l ;
  do path <- download linkURL (Name d) ;
  if l =? DSC d then ret (set_DscPath path d) else ret d.

Fixpoint fetch_loop (d : dpkgSrc) (links : list string) : M dpkgSrc :=
  match links with
  | [] => ret d
  | l :: rest => do d' <- fetch_body d l ; fetch_loop d' rest
  end.

Definition fetch (d : dpkgSrc) : M dpkgSrc :=
  fetch_loop d [DSC d; Debian d; Orig d].

(** *** [extract] *)

Fixpoint log_lines (lines : list string) : M unit :=
  match lines with
  | [] => ret tt
  | x :: rest => run log_Print x ; log_lines rest
  end.

(** The pipe of a command that has not started and has no [Stdout] set
    is always created; the goroutine that logs the output is placed
    between [Start] and the return of [Wait]. *)
Definition extract (d : dpkgSrc) : M unit :=
  let '(_, dscFile) := filepath.Split (DscPath d) in
  let argv := ["dpkg-source"; "-x"; "--no-check"; dscFile] in
  let dir := filepath.FromSlash (Name d) in
  run emit (EvExec dir argv) ;
  fun st =>
    let r := tool (fs st) dir argv in
    match StartErr r with
    | Some e => log_Fatalf ("Error starting Cmd: " ++ e) st
    | None =>
        (run log_lines (Stdout r) ;
         match WaitErr r with
         | Some e => log_Fatalf ("Error waiting for Cmd: " ++ e)
         | None => ret tt
         end) st
    end.

(** *** The link extractor *)

Fixpoint getHref_loop (attr : list Attribute) : string * bool :=
  match attr with
  | [] => ("", false)
  | a :: rest => if Key a =? "href" then (Val a, true) else getHref_loop rest
  end.

Definition getHref (t : Token) : string * bool := getHref_loop (Attr t).

Fixpoint getLinks_loop (links : list string) (toks : list Token) : list string :=
  match toks with
  | [] => links
  | token :: rest =>
      match Type_ token with
      | ErrorToken => links
      | StartTagToken =>
          if Data token =? "a" then
            let '(href, ok) := getHref token in
            if ok then getLinks_loop (links ++ [href]) rest
            else getLinks_loop links rest
          else getLinks_loop links rest
      | _ => getLinks_loop links rest
      end
  end.

Definition getLinks (body : string) : list string :=
  getLinks_loop [] (tokens_of body).

(** *** The two commands

    A command returns [Some e] for the error [e] and [None] for [nil]. *)

(** The named results start at their zero values. *)
Definition validateArgs (c : Context) : string * bool :=
  if (0 <? NArg c)%nat then (hd "" (Args c), true) else ("", false).

Definition commandBuild (c : Context) : M (option string) :=
  run log_Print "build" ;
  let '(pkgName, ok) := validateArgs c in
  if negb ok then ret (Some "fetch: no package name provided")
  else
    run log_Print ("Building " ++ pkgName) ;
    ret None.

Definition commandFetch (c : Context) : M (option string) :=
  let '(pkgName, ok) := validateArgs c in
  if negb ok then ret (Some "fetch: no package name provided")
  else
    run log_Print ("Fetching " ++ pkgName) ;
    match Parse debianTestingBaseURL with
    | inl e => log_Fatalf ("Error parsing base URL: " ++ e)
    | inr baseURL =>
        let fetchURL := URL_String baseURL ++ PathEscape pkgName in
        run log_Print ("Downloading " ++ fetchURL ++ "...") ;
        do r <- http_Get fetchURL ;
        match r with
        | inl e => log_Fatalf ("Error getting " ++ fetchURL ++ ": " ++ e)
        | inr resp =>
            let dp := new_dpkgSrc in
            let links := getLinks (Body resp) in
            let dp := fillFromLinks dp links in
            let dp := set_Name pkgName dp in
            let dp := set_BaseURL (Some baseURL) dp in
            do dp <- fetch dp ;
            run extract dp ;
            ret None
        end
    end.

End Program.

(** ** A reference implementation of the URL library

    Go's [net/url] restricted to references made of scheme, host, path,
    query and fragment: no percent-escapes, no user information, no port
    check, no bare trailing question mark.  The theorems below hold for
    every implementation of [NetURL]; this one runs the program on
    concrete pages. *)

Module RefURL.

Definition is_alpha (c : ascii) : bool :=
  let n := nat_of_ascii c in
  ((97 <=? n) && (n <=? 122) || (65 <=? n) && (n <=? 90))%nat.

Definition is_scheme_extra (c : ascii) : bool :=
  let n := nat_of_ascii c in
  ((48 <=? n) && (n <=? 57))%nat
  || Ascii.eqb c "+" || Ascii.eqb c "-" || Ascii.eqb c ".".

Definition is_ctl (c : ascii) : bool :=
  let n := nat_of_ascii c in ((n <? 32) || (n =? 127))%nat.

Fixpoint has_ctl (s : string) : bool :=
  match s with
  | EmptyString => false
  | String c s' => is_ctl c || has_ctl s'
  end.

Definition to_lower (c : ascii) : ascii :=
  let n := nat_of_ascii c in
  if ((65 <=? n) && (n <=? 90))%nat then ascii_of_nat (n + 32) else c.

Fixpoint ToLower (s : string) : string :=
  match s with
  | EmptyString => EmptyString
  | String c s' => String (to_lower c) (ToLower s')
  end.

(** The scan of [getScheme] from byte [i]: [inr (Some i)] when a colon
    ends a scheme at [i], [inr None] when there is no scheme. *)
Fixpoint getScheme_loop (i : nat) (s : string) : string + option nat :=
  match s with
  | EmptyString => inr None
  | String c s' =>
      if is_alpha c then getScheme_loop (S i) s'
      else if is_scheme_extra c then
        match i with 0 => inr None | _ => getScheme_loop (S i) s' end
      else if Ascii.eqb c ":" then
        match i with 0 => inl "missing protocol scheme" | _ => inr (Some i) end
      else inr None
  end.

Definition getScheme (rawURL : string) : string + (string * string) :=
  match getScheme_loop 0 rawURL with
  | inl e => inl e
  | inr (Some i) =>
      inr (strings.slice_to rawURL i, strings.slice_from rawURL (i + 1))
  | inr None => inr ("", rawURL)
  end.

Definition parse (rawURL frag : string) : string + URL :=
  if has_ctl rawURL then inl "net/url: invalid control character in URL"
  else
    match getScheme rawURL with
    | inl e => inl e
    | inr (scheme, rest) =>
        let scheme := ToLower scheme in
        let '(rest, query, _) := strings.Cut rest "?" in
        if negb (strings.HasPrefix rest "/") && negb (scheme =? "")
        then inr (mkURL scheme rest "" "" query frag)
        else if negb (strings.HasPrefix rest "/")
                && (let '(segment, _, _) := strings.Cut rest "/" in
                    strings.Contains segment ":")
        then inl "first path segment in URL cannot contain colon"
        else if (negb (scheme =? "") || negb (strings.HasPrefix rest "///"))
                && strings.HasPrefix rest "//"
        then
          let authority := strings.slice_from rest 2 in
          let i := strings.Index authority "/" in
          if (0 <=? i)%Z
          then inr (mkURL scheme ""
                      (strings.slice_to authority (Z.to_nat i))
                      (strings.slice_from authority (Z.to_nat i)) query frag)
          else inr (mkURL scheme "" authority "" query frag)
        else inr (mkURL scheme "" "" rest query frag)
    end.

Definition quote : string := String (ascii_of_nat 34) EmptyString.

Definition Parse (rawURL : string) : string + URL :=
  let '(u, frag, _) := strings.Cut rawURL "#" in
  match parse u frag with
  | inl e => inl ("parse " ++ quote ++ rawURL ++ quote ++ ": " ++ e)
  | inr url => inr url
  end.

(** One element read by [resolvePath]; the state is the text written
    so far and the flag [first]. *)
Definition resolvePath_step (acc : string * bool) (elem : string)
  : string * bool :=
  let '(dst, first) := acc in
  if elem =? "." then (dst, false)
  else if elem =? ".." then
    let str := strings.slice_from dst 1 in
    let index := strings.LastIndex str "/" in
    if (index =? -1)%Z then ("/", true)
    else ("/" ++ strings.slice_to str (Z.to_nat index), first)
  else ((if first then dst else dst ++ "/") ++ elem, false).

Definition resolvePath (base ref : string) : string :=
  let full :=
    if ref =? "" then base
    else if negb (strings.HasPrefix ref "/") then
      let i := strings.LastIndex base "/" in
      strings.slice_to base (Z.to_nat (i + 1)) ++ ref
    else ref in
  if full =? "" then ""
  else
    let elems := strings.Split_slash full in
    let '(dst, _) := fold_left resolvePath_step elems ("/", true) in
    let elem := List.last elems "" in
    let r := if (elem =? ".") || (elem =? "..") then dst ++ "/" else dst in
    if strings.HasPrefix r "//" then strings.slice_from r 1 else r.

Definition ResolveReference (u ref : URL) : URL :=
  let scheme := if Scheme ref =? "" then Scheme u else Scheme ref in
  if negb (Scheme ref =? "") || negb (Host ref =? "") then
    mkURL scheme (Opaque ref) (Host ref) (resolvePath (Path ref) "")
          (RawQuery ref) (Fragment ref)
  else if negb (Opaque ref =? "") then
    mkURL scheme (Opaque ref) "" "" (RawQuery ref) (Fragment ref)
  else
    let inherit := (Path ref =? "") && (RawQuery ref =? "") in
    let query := if inherit then RawQuery u else RawQuery ref in
    let frag :=
      if inherit && (Fragment ref =? "") then Fragment u else Fragment ref in
    if (Path ref =? "") && negb (Opaque u =? "") then
      mkURL scheme (Opaque u) "" "" query frag
    else
      mkURL scheme "" (Host u) (resolvePath (Path u) (Path ref)) query frag.

Definition URL_String (u : URL) : string :=
  (if Scheme u =? "" then "" else Scheme u ++ ":")
  ++ (if negb (Opaque u =? "") then Opaque u
      else
        (if negb (Scheme u =? "") || negb (Host u =? "")
         then (if negb (Host u =? "") || negb (Path u =? "") then "//" else "")
              ++ Host u
         else "")
        ++ (if negb (Path u =? "") && negb (strings.HasPrefix (Path u) "/")
               && negb (Host u =? "")
            then "/" else "")
        ++ Path u)
  ++ (if RawQuery u =? "" then "" else "?" ++ RawQuery u)
  ++ (if Fragment u =? "" then "" else "#" ++ Fragment u).

Definition hex_digit (n : nat) : ascii :=
  if (n <? 10)%nat then ascii_of_nat (48 + n) else ascii_of_nat (55 + n).

(** Bytes that [PathEscape] leaves alone. *)
Definition path_segment_safe (c : ascii) : bool :=
  let n := nat_of_ascii c in
  is_alpha c || ((48 <=? n) && (n <=? 57))%nat
  || existsb (Ascii.eqb c) (list_ascii_of_string "-_.~$&+=:@").

Fixpoint PathEscape (s : string) : string :=
  match s with
  | EmptyString => EmptyString
  | String c s' =>
      if path_segment_safe c then String c (PathEscape s')
      else
        let n := nat_of_ascii c in
        String "%" (String (hex_digit (n / 16))
                      (String (hex_digit (n mod 16)) (PathEscape s')))
  end.

#[export] Instance lib : NetURL := {
  Parse := Parse;
  ResolveReference := ResolveReference;
  URL_String := URL_String;
  PathEscape := PathEscape
}.

End RefURL.

(** ** Sample worlds

    Concrete environments on which the program is run below. *)

Module Sample.

Definition base : URL :=
  mkURL "https" "" "packages.debian.org" "/buster/" "" "".

(** The URL of the description file of the end-to-end scenario. *)
Definition dsc_url : URL :=
  mkURL "https" "" "packages.debian.org" "/buster/foo_1.0.dsc" "" "".

Definition empty_state : State := mkState ∅ [].

(** A document is a list of lines, each the href of one anchor. *)
Fixpoint lines_of (cur : string) (s : string) : list string :=
  match s with
  | EmptyString => [cur]
  | String c s' =>
      if Ascii.eqb c (ascii_of_nat 10) then cur :: lines_of "" s'
      else lines_of (cur ++ String c "") s'
  end.

#[export] Instance anchors_per_line : HTMLTokenizer := {
  tokens_of body :=
    (map (fun h => mkToken StartTagToken "a" [mkAttribute "href" h])
         (lines_of "" body)
     ++ [mkToken ErrorToken "" []])%list
}.

Definition is_file (m : gmap string Node) (p : string) : bool :=
  match m !! p with Some (File _) => true | _ => false end.

(** The extraction tool fails when the description file it is given is
    not a regular file of its working directory. *)
Definition dpkg_source (m : gmap string Node) (dir : string)
    (argv : list string) : Run :=
  if is_file m (filepath.Join [dir; List.last argv ""])
  then mkRun None ["dpkg-source: info: extracting"] None
  else mkRun None [] (Some "exit status 2").

(** Every URL is served, every directory and file can be created. *)
Definition up : Env := {|
  http := fun _ => inr (mkResponse "data" None);
  mkdir_err := fun _ => None;
  create_err := fun _ => None;
  tool := dpkg_source
|}.

(** The network is down. *)
Definition net_down : Env := {|
  http := fun _ => inl "dial tcp: connection refused";
  mkdir_err := fun _ => None;
  create_err := fun _ => None;
  tool := dpkg_source
|}.

(** Bodies break off after two bytes. *)
Definition truncating : Env := {|
  http := fun _ => inr (mkResponse "da" (Some "unexpected EOF"));
  mkdir_err := fun _ => None;
  create_err := fun _ => None;
  tool := dpkg_source
|}.


(** The record of the page of the end-to-end scenario. *)
Definition foo : dpkgSrc :=
  set_BaseURL (Some base)
    (set_Name "foo"
       (fillFromLinks new_dpkgSrc
          ["foo_1.0.dsc"; "foo_1.0.orig.tar.gz"; "foo_1.0.debian.tar.xz";
           "changelog"])).

End Sample.


(** ** The final path segment, as the specification words it *)

Fixpoint has_slash (s : string) : bool :=
  match s with
  | EmptyString => false
  | String c s' => Ascii.eqb c "/" || has_slash s'
  end.

(** [name] is the text after the last slash of [p]: it has no slash, and
    [p] is [name] alone or ends in a slash followed by [name]. *)
Definition final_segment_of (p name : string) : Prop :=
  has_slash name = false ∧ (p = name ∨ ∃ pre, p = pre ++ "/" ++ name).

(** A plain name: one path element that is not empty and not a dot
    element. *)
Definition plain (s : string) : bool :=
  negb (has_slash s) && negb (s =? "") && negb (s =? ".") && negb (s =? "..").

(** ** Vocabulary of the statements about [download] *)

(** The directory is there, or [Mkdir] will make it. *)
Definition dir_ready `{!Env} (st : State) (dir : string) : Prop :=
  is_Some (fs st !! dir) ∨ mkdir_err dir = None.

(** An environment in which nothing goes wrong: directories and files
    can be created and every URL is served to the end. *)
Definition cooperative `{!Env} : Prop :=
  (∀ p, mkdir_err p = None)
  ∧ (∀ p, create_err p = None)
  ∧ ∀ url, ∃ resp, http url = inr resp ∧ ReadErr resp = None.

(** The line that [download] logs first. *)
Definition downloading_line `{!NetURL} (u : URL) (pkgName : string) : string :=
  "Downloading " ++ URL_String u ++ " to " ++ (buildPath u pkgName).1 ++ "...".

(** The first lines of the [download] calls in a trace. *)
Definition download_lines (t : list Event) : list string :=
  List.filter (fun m => strings.HasPrefix m "Downloading ") (logs t).

(** The files that [os.Create] made or truncated in a trace. *)
Definition creates (t : list Event) : list string :=
  omap (fun e => match e with EvCreate p => Some p | _ => None end) t.

(** The state in which [download] looks for the destination: the line
    is logged and the directory is there. *)
Definition entered `{!NetURL} (u : URL) (pkg : string) (st : State) : State :=
  match fs st !! (buildPath u pkg).2 with
  | Some _ => mkState (fs st) (trace st ++ [EvLog (downloading_line u pkg)])
  | None =>
      mkState (<[(buildPath u pkg).2 := Dir]> (fs st))
        (trace st ++ [EvLog (downloading_line u pkg);
                      EvMkdir (buildPath u pkg).2])
  end.

(** The resolver, as the specification words it: an href that parses
    is kept when it has a scheme, and is otherwise resolved against the
    base URL. *)
Definition resolve_href `{!NetURL} (base : option URL) (l : string)
  : option URL :=
  match Parse l with
  | inl _ => None
  | inr u =>
      if IsAbs u then Some u
      else match base with
           | Some b => Some (ResolveReference b u)
           | None => None
           end
  end.


(** The href [l] is assigned to a role: whatever the record held, after
    the classifier has read [l] that role holds [l]. *)
Definition assigns (l : string) : Prop :=
  ∃ r, ∀ d, role_href r (fillFromLinks d [l]) = l.

(** The rule test of [filterLinks], over the three roles. *)
Definition keeps (l : string) : bool :=
  existsb (fun r => matches r l) [Description; Original; DebianDiff].

(** Two properties in the words of the specification, to be tested on
    concrete worlds. *)



(** ** The intermediate version: [download] without a result, and
       [commandFetch] over the filtered links *)

Section Program_000.

Context `{!NetURL, !HTMLTokenizer, !Env}.

(** [download] of the intermediate version; [buildPath],
    [ensureDirExists] and [fileExists] are the ones of the final
    version, word for word. *)
Definition download_000 (u : URL) (pkgName : string) : M unit :=
  let '(path, dir) := buildPath u pkgName in
  run log_Print ("Downloading " ++ URL_String u ++ " to " ++ path ++ "...") ;
  run ensureDirExists dir ;
  do ex <- fileExists path ;
  if ex then
    run log_Print "File already exists, skipping." ;
    ret tt
  else
    do err <- os_Create path ;
    match err with
    | Some e => log_Fatalf ("Error creating file " ++ path ++ ": " ++ e)
    | None =>
        do r <- http_Get (URL_String u) ;
        match r with
        | inl e => log_Fatalf ("Error downloading file " ++ URL_String u ++ ": " ++ e)
        | inr resp =>
            do err <- io_Copy path resp ;
            match err with
            | Some e =>
                log_Fatalf ("Error downloading file " ++ URL_String u
                            ++ " to " ++ path ++ ": " ++ e)
            | None => ret tt
            end
        end
    end.

(** The loop of [commandFetch] over the filtered links. *)
Fixpoint commandFetch_000_loop (baseURL : URL) (pkgName : string)
    (links : list string) : M unit :=
  match links with
  | [] => ret tt
  | l :: rest =>
      match Parse l with
      | inl e => log_Fatalf ("Error parsing URL " ++ l ++ ": " ++ e)
      | inr linkURL =>
          let linkURL :=
            if negb (IsAbs linkURL) then ResolveReference baseURL linkURL
            else linkURL in
          run download_000 linkURL pkgName ;
          commandFetch_000_loop baseURL pkgName rest
      end
  end.

Definition commandFetch_000 (c : Context) : M (option string) :=
  let '(pkgName, ok) := validateArgs c in
  if negb ok then ret (Some "fetch: no package name provided")
  else
    run log_Print ("Fetching " ++ pkgName) ;
    match Parse debianTestingBaseURL with
    | inl e => log_Fatalf ("Error parsing base URL: " ++ e)
    | inr baseURL =>
        let fetchURL := URL_String baseURL ++ PathEscape pkgName in
        run log_Print ("Downloading " ++ fetchURL ++ "...") ;
        do r <- http_Get fetchURL ;
        match r with
        | inl e => log_Fatalf ("Error getting " ++ fetchURL ++ ": " ++ e)
        | inr resp =>
            let links := getLinks (Body resp) in
            let links := filterLinks links in
            run commandFetch_000_loop baseURL pkgName links ;
            ret None
        end
    end.

End Program_000.

(** ** The first version: [download] only logs *)

Section Program_v1.

Context `{!NetURL, !HTMLTokenizer, !Env}.

Definition download_v1 (u : URL) : M unit :=
  log_Print ("Downloading " ++ URL_String u ++ "...").

Fixpoint commandFetch_v1_loop (baseURL : URL) (links : list string) : M unit :=
  match links with
  | [] => ret tt
  | l :: rest =>
      match Parse l with
      | inl e => log_Fatalf ("Error parsing URL " ++ l ++ ": " ++ e)
      | inr linkURL =>
          let linkURL :=
            if negb (IsAbs linkURL) then ResolveReference baseURL linkURL
            else linkURL in
          run download_v1 linkURL ;
          commandFetch_v1_loop baseURL rest
      end
  end.

Definition commandFetch_v1 (c : Context) : M (option string) :=
  let '(pkgName, ok) := validateArgs c in
  if negb ok then ret (Some "fetch: no package name provided")
  else
    run log_Print ("Fetching " ++ pkgName) ;
    match Parse debianTestingBaseURL with
    | inl e => log_Fatalf ("Error parsing base URL: " ++ e)
    | inr baseURL =>
        let fetchURL := URL_String baseURL ++ PathEscape pkgName in
        run log_Print ("Downloading " ++ fetchURL ++ "...") ;
        do r <- http_Get fetchURL ;
        match r with
        | inl e => log_Fatalf ("Error getting " ++ fetchURL ++ ": " ++ e)
        | inr resp =>
            let links := getLinks (Body resp) in
            let links := filterLinks_v1 links in
            run commandFetch_v1_loop baseURL links ;
            ret None
        end
    end.

End Program_v1.

(** ** Vocabulary of the further statements *)

(** The href that an anchor start tag contributes, if any. *)
Definition anchor_href (t : Token) : option string :=
  match Type_ t with
  | StartTagToken =>
      if Data t =? "a" then
        let '(href, ok) := getHref t in if ok then Some href else None
      else None
  | _ => None
  end.

Definition is_error (t : Token) : bool :=
  match Type_ t with ErrorToken => true | _ => false end.

(** The tokens before the first error token. *)
Fixpoint before_error (toks : list Token) : list Token :=
  match toks with
  | [] => []
  | t :: rest => if is_error t then [] else t :: before_error rest
  end.

(** The rule test of the first version of the filter. *)
Definition keeps_v1 (l : string) : bool :=
  strings.HasSuffix l ".dsc" || strings.HasSuffix l ".orig.tar.xz"
  || strings.HasSuffix l ".debian.tar.xz".

(** The directories that [os.Mkdir] was asked to make in a trace. *)
Definition mkdirs (t : list Event) : list string :=
  omap (fun e => match e with EvMkdir p => Some p | _ => None end) t.

(** A computation's outcome without its result. *)
Definition forget {A} (o : Outcome A) : Outcome unit :=
  match o with
  | Ok _ st => Ok tt st
  | Fatal msg st => Fatal msg st
  end.

(** The events that an outcome added to the trace of [st]. *)
Definition added {A} (st : State) (o : Outcome A) (new : list Event) : Prop :=
  trace (final_state o) = (trace st ++ new)%list.

(** ** Facts about byte strings *)

Section StringFacts.

Lemma str_length_app (a b : string) :
  String.length (a ++ b) = String.length a + String.length b.
Proof. induction a as [|c a IH]; simpl; [reflexivity | now rewrite IH]. Qed.


Lemma str_app_assoc (a b c : string) : (a ++ b) ++ c = a ++ (b ++ c).
Proof. induction a as [|x a IH]; simpl; [reflexivity | now rewrite IH]. Qed.

Lemma substring_all (s : string) : substring 0 (String.length s) s = s.
Proof. induction s as [|c s IH]; simpl; [reflexivity | now rewrite IH]. Qed.

Lemma substring_skip (p s : string) (m : nat) :
  substring (String.length p) m (p ++ s) = substring 0 m s.
Proof. induction p as [|c p IH]; simpl; [reflexivity | exact IH]. Qed.

Lemma substring_split (s : string) (n : nat) :
  n <= String.length s →
  s = substring 0 n s ++ substring n (String.length s - n) s.
Proof.
  revert n. induction s as [|c s IH]; intros n Hn; simpl in *.
  - destruct n; reflexivity.
  - destruct n as [|n]; simpl.
    + now rewrite substring_all.
    + f_equal. apply IH. lia.
Qed.

Lemma slice_from_app (p s : string) :
  strings.slice_from (p ++ s) (String.length p) = s.
Proof.
  unfold strings.slice_from. rewrite str_length_app, substring_skip.
  replace (String.length p + String.length s - String.length p)
    with (String.length s) by lia.
  apply substring_all.
Qed.

Lemma slice_split (s : string) (n : nat) :
  n <= String.length s →
  s = strings.slice_to s n ++ strings.slice_from s n.
Proof. apply substring_split. Qed.

(** [HasSuffix] decides [ends_with]. *)
Lemma HasSuffix_iff (s suffix : string) :
  strings.HasSuffix s suffix = true ↔ ends_with s suffix.
Proof.
  unfold strings.HasSuffix, ends_with. split.
  - intros H. apply andb_true_iff in H as [Hlen Heq].
    apply Nat.leb_le in Hlen. apply String.eqb_eq in Heq.
    exists (strings.slice_to s (String.length s - String.length suffix)).
    pose proof (slice_split s (String.length s - String.length suffix)) as E.
    rewrite Heq in E. apply E. lia.
  - intros [p ->]. rewrite str_length_app. apply andb_true_iff. split.
    + apply Nat.leb_le. lia.
    + replace (String.length p + String.length suffix - String.length suffix)
        with (String.length p) by lia.
      rewrite slice_from_app. apply String.eqb_refl.
Qed.

Lemma HasSuffix_false (s suffix : string) :
  strings.HasSuffix s suffix = false ↔ ¬ ends_with s suffix.
Proof.
  rewrite <- HasSuffix_iff. destruct (strings.HasSuffix s suffix); split;
    intros H; try discriminate; try reflexivity; exfalso; auto.
Qed.

(** Of two suffixes of one string, the shorter is a suffix of the
    longer. *)
Lemma ends_with_nested (s a b : string) :
  ends_with s a → ends_with s b →
  String.length b <= String.length a → ends_with a b.
Proof.
  intros [p1 H1] [p2 H2] Hlen. subst s.
  revert p2 H2. induction p1 as [|c p1 IH]; intros p2 H2; simpl in *.
  - now exists p2.
  - destruct p2 as [|c' p2]; simpl in *.
    + exfalso. apply (f_equal String.length) in H2. simpl in H2.
      rewrite str_length_app in H2. lia.
    + injection H2 as _ H2. now apply (IH p2).
Qed.

Lemma suffix_clash (s a b : string) :
  String.length b <= String.length a →
  strings.HasSuffix a b = false →
  ends_with s a → ends_with s b → False.
Proof.
  intros Hlen Hno Ha Hb. apply HasSuffix_false in Hno. apply Hno.
  eapply ends_with_nested; eauto.
Qed.

End StringFacts.

(** Two of the four suffixes never end the same string. *)
Ltac clash :=
  match goal with
  | Ha : ends_with ?s ?a, Hb : ends_with ?s ?b |- _ =>
      exfalso;
      first [ apply (suffix_clash s a b); [simpl; lia | reflexivity | exact Ha | exact Hb]
            | apply (suffix_clash s b a); [simpl; lia | reflexivity | exact Hb | exact Ha] ]
  end.

Lemma rule_functional (l : string) (r r' : Role) :
  rule r l → rule r' l → r = r'.
Proof.
  intros H H'. destruct H; inversion H'; subst; try reflexivity; clash.
Qed.

Lemma matches_rule (r : Role) (l : string) : matches r l = true ↔ rule r l.
Proof.
  destruct r; simpl; rewrite ?orb_true_iff, ?HasSuffix_iff; split.
  - apply rule_dsc.
  - inversion 1; assumption.
  - intros [H|H]; [now apply rule_orig_xz | now apply rule_orig_gz].
  - inversion 1; auto.
  - apply rule_debian.
  - inversion 1; assumption.
Qed.

Lemma matches_functional (l : string) (r r' : Role) :
  matches r l = true → matches r' l = true → r = r'.
Proof. rewrite !matches_rule. apply rule_functional. Qed.

Lemma matches_other (l : string) (r r' : Role) :
  matches r l = true → r' ≠ r → matches r' l = false.
Proof.
  intros H Hne. destruct (matches r' l) eqn:E; [|reflexivity].
  exfalso. apply Hne. eapply matches_functional; eauto.
Qed.

(** What one turn of the loop does to each role. *)
Lemma fillFromLinks_body_role (d : dpkgSrc) (l : string) (r : Role) :
  role_href r (fillFromLinks_body d l) = if matches r l then l else role_href r d.
Proof.
  destruct (matches Description l) eqn:E1, (matches Original l) eqn:E2,
           (matches DebianDiff l) eqn:E3;
    try (pose proof (matches_functional l _ _ E1 E2); discriminate);
    try (pose proof (matches_functional l _ _ E1 E3); discriminate);
    try (pose proof (matches_functional l _ _ E2 E3); discriminate);
    simpl in E1, E2, E3; unfold fillFromLinks_body;
    destruct r; simpl; rewrite ?E1, ?E2, ?E3; reflexivity.
Qed.

Lemma fillFromLinks_body_other (d : dpkgSrc) (l : string) :
  Name (fillFromLinks_body d l) = Name d
  ∧ BaseURL (fillFromLinks_body d l) = BaseURL d
  ∧ DscPath (fillFromLinks_body d l) = DscPath d.
Proof.
  unfold fillFromLinks_body.
  repeat match goal with |- context [if ?b then _ else _] => destruct b end;
    simpl; auto.
Qed.

Lemma dpkgSrc_ext (d d' : dpkgSrc) :
  Name d = Name d' → BaseURL d = BaseURL d' → DscPath d = DscPath d' →
  (∀ r, role_href r d = role_href r d') → d = d'.
Proof.
  intros Hn Hb Hp Hr. destruct d, d'; simpl in *.
  pose proof (Hr Description). pose proof (Hr Original). pose proof (Hr DebianDiff).
  simpl in *. congruence.
Qed.

Lemma fillFromLinks_app (d : dpkgSrc) (l1 l2 : list string) :
  fillFromLinks d (l1 ++ l2) = fillFromLinks (fillFromLinks d l1) l2.
Proof. revert d. induction l1 as [|x l1 IH]; intros d; simpl; auto. Qed.

Lemma default_last_cons {A} (a x : A) (l : list A) :
  default a (last (x :: l)) = default x (last l).
Proof.
  revert x. induction l as [|y l IH]; intros x; [reflexivity|].
  rewrite last_cons. destruct (last (y :: l)) eqn:L; [reflexivity|].
  apply last_None in L. discriminate.
Qed.

Lemma fillFromLinks_role (d : dpkgSrc) (links : list string) (r : Role) :
  role_href r (fillFromLinks d links)
  = default (role_href r d) (last (List.filter (matches r) links)).
Proof.
  revert d. induction links as [|l links IH]; intros d; simpl; [reflexivity|].
  rewrite IH, fillFromLinks_body_role.
  destruct (matches r l) eqn:E; [|reflexivity].
  now rewrite default_last_cons.
Qed.

(** ** The classifier *)

(** C1. Reading one href sets the role whose suffix rule it matches to
    that href and leaves the other two roles alone; an href matches at
    most one rule; an href that matches none leaves the record as it was;
    the hrefs of a list are read one after the other; and on the empty
    list nothing changes, so a new record keeps all three roles absent. *)
Theorem classifier_rules :
  (∀ d l r, rule r l →
     role_href r (fillFromLinks d [l]) = l
     ∧ ∀ r', r' ≠ r → role_href r' (fillFromLinks d [l]) = role_href r' d)
  ∧ (∀ l r r', rule r l → rule r' l → r = r')
  ∧ (∀ d l, (∀ r, ¬ rule r l) → fillFromLinks d [l] = d)
  ∧ (∀ d pre l post,
       fillFromLinks d (pre ++ l :: post)
       = fillFromLinks (fillFromLinks (fillFromLinks d pre) [l]) post)
  ∧ (∀ d, fillFromLinks d [] = d)
  ∧ (∀ r, absent r (fillFromLinks new_dpkgSrc [])).
Proof.
  repeat split.
  - cbn [fillFromLinks]. rewrite fillFromLinks_body_role.
    apply matches_rule in H. now rewrite H.
  - intros r' Hne. cbn [fillFromLinks]. rewrite fillFromLinks_body_role.
    apply matches_rule in H. now rewrite (matches_other l r r' H Hne).
  - apply rule_functional.
  - intros d l Hno. cbn [fillFromLinks].
    destruct (fillFromLinks_body_other d l) as (Hn & Hb & Hp).
    apply dpkgSrc_ext; auto. intros r. rewrite fillFromLinks_body_role.
    destruct (matches r l) eqn:E; [|reflexivity].
    apply matches_rule in E. now destruct (Hno r).
  - intros d pre l post. now rewrite fillFromLinks_app.
  - destruct r; reflexivity.
Qed.

Lemma classifier_rules_witness :
  role_href Original (fillFromLinks new_dpkgSrc ["foo_1.0.orig.tar.gz"])
  = "foo_1.0.orig.tar.gz"
  ∧ role_href Description (fillFromLinks new_dpkgSrc ["foo_1.0.orig.tar.gz"]) = ""
  ∧ fillFromLinks new_dpkgSrc ["changelog"] = new_dpkgSrc.
Proof.
  destruct classifier_rules as (Hset & _ & Hdrop & _).
  assert (Hr : rule Original "foo_1.0.orig.tar.gz").
  { apply rule_orig_gz. exists "foo_1.0". reflexivity. }
  destruct (Hset new_dpkgSrc _ _ Hr) as [H1 H2].
  split; [exact H1|]. split.
  - apply (H2 Description). discriminate.
  - apply Hdrop. intros r Hrule. apply matches_rule in Hrule.
    destruct r; discriminate Hrule.
Defined.

(** C3. After the classifier has read a list, each role holds the last
    href of the list that matches the role's rule (or what it held before
    when no href matches); in particular, of two hrefs that match the same
    rule the later one is kept.  The classifier is a total function: there
    is no error to raise. *)
Theorem last_href_wins (d : dpkgSrc) (links : list string) (r : Role) :
  role_href r (fillFromLinks d links)
  = default (role_href r d) (last (List.filter (matches r) links))
  ∧ ∀ pre a mid b post,
      links = (pre ++ a :: mid ++ b :: post)%list →
      rule r a → rule r b → (∀ x, In x post → ¬ rule r x) →
      role_href r (fillFromLinks d links) = b.
Proof.
  split; [apply fillFromLinks_role|].
  intros pre a mid b post -> Ha Hb Hpost.
  rewrite fillFromLinks_role.
  replace (pre ++ a :: mid ++ b :: post)%list
    with ((pre ++ a :: mid) ++ [b] ++ post)%list
    by (now rewrite <- List.app_assoc).
  rewrite !List.filter_app.
  assert (Hnone : List.filter (matches r) post = []).
  { clear -Hpost. induction post as [|x post IH]; [reflexivity|].
    cbn [List.filter]. destruct (matches r x) eqn:E.
    - apply matches_rule in E. destruct (Hpost x); [now left|exact E].
    - apply IH. intros y Hy. apply Hpost. now right. }
  rewrite Hnone, List.app_nil_r. cbn [List.filter].
  apply matches_rule in Hb. rewrite Hb. now rewrite last_snoc.
Qed.

Lemma last_href_wins_witness :
  role_href Description
    (fillFromLinks new_dpkgSrc ["a_1.dsc"; "changelog"; "b_2.dsc"; "b_2.debian.tar.xz"])
  = "b_2.dsc".
Proof.
  apply (proj2 (last_href_wins new_dpkgSrc
                  ["a_1.dsc"; "changelog"; "b_2.dsc"; "b_2.debian.tar.xz"]
                  Description)
           [] "a_1.dsc" ["changelog"] "b_2.dsc" ["b_2.debian.tar.xz"]).
  - reflexivity.
  - apply rule_dsc. exists "a_1". reflexivity.
  - apply rule_dsc. exists "b_2". reflexivity.
  - intros x [<- | []] Hrule. apply matches_rule in Hrule. discriminate Hrule.
Defined.

Lemma filterLinks_loop_filter (acc links : list string) :
  filterLinks_loop acc links = (acc ++ List.filter keeps links)%list.
Proof.
  revert acc. induction links as [|l links IH]; intros acc;
    cbn [filterLinks_loop List.filter]; [now rewrite List.app_nil_r|].
  unfold keeps at 1. cbn [existsb matches]. rewrite orb_false_r.
  destruct (strings.HasSuffix l ".dsc"); cbn [orb].
  { rewrite IH, <- List.app_assoc. reflexivity. }
  destruct (strings.HasSuffix l ".orig.tar.xz" || strings.HasSuffix l ".orig.tar.gz");
    cbn [orb].
  { rewrite IH, <- List.app_assoc. reflexivity. }
  destruct (strings.HasSuffix l ".debian.tar.xz").
  { rewrite IH, <- List.app_assoc. reflexivity. }
  apply IH.
Qed.

Lemma keeps_assigns (l : string) : keeps l = true ↔ assigns l.
Proof.
  unfold keeps, assigns. rewrite existsb_exists. split.
  - intros (r & _ & Hr). exists r. intros d. cbn [fillFromLinks].
    now rewrite fillFromLinks_body_role, Hr.
  - intros (r & Hr). exists r. split; [destruct r; cbn; auto|].
    destruct (matches r l) eqn:E; [reflexivity|]. exfalso.
    set (other := String "x" l).
    specialize (Hr (mkDpkgSrc "" other other other None "")).
    cbn [fillFromLinks] in Hr. rewrite fillFromLinks_body_role, E in Hr.
    assert (Hlen : String.length other = String.length l)
      by (destruct r; cbn in Hr; now rewrite Hr).
    cbn in Hlen. lia.
Qed.

(** C10. The link filter of the intermediate version keeps exactly the
    hrefs that the classifier of the final version assigns to a role, in
    their order and with their repetitions: both test the same four
    suffixes. *)
Theorem filterLinks_agrees (links : list string) :
  (∀ l, In l (filterLinks links) ↔ In l links ∧ assigns l)
  ∧ filterLinks links = List.filter keeps links
  ∧ (∀ l, keeps l = true ↔ assigns l).
Proof.
  assert (Hf : filterLinks links = List.filter keeps links).
  { unfold filterLinks. now rewrite filterLinks_loop_filter. }
  split; [|split; [exact Hf | apply keeps_assigns]].
  intros l. rewrite Hf, List.filter_In, keeps_assigns. reflexivity.
Qed.

(** The first version of the filter is not the same: it drops the
    gzip-compressed original archive. *)
Example filterLinks_v1_differs :
  filterLinks_v1 ["foo_1.0.orig.tar.gz"] = []
  ∧ filterLinks ["foo_1.0.orig.tar.gz"] = ["foo_1.0.orig.tar.gz"].
Proof. split; reflexivity. Qed.

(** ** Facts about slashes, [LastIndex] and [filepath.Join] *)

Section PathFacts.

Lemma slice_from_0 (s : string) : strings.slice_from s 0 = s.
Proof.
  unfold strings.slice_from. rewrite Nat.sub_0_r. apply substring_all.
Qed.

Lemma prefix_nil (s : string) : String.prefix "" s = true.
Proof. destruct s; reflexivity. Qed.

Lemma prefix_slash (c : ascii) (s : string) :
  String.prefix "/" (String c s) = Ascii.eqb "/" c.
Proof.
  change (String.prefix "/" (String c s))
    with (if ascii_dec "/" c then String.prefix "" s else false).
  destruct (ascii_dec "/" c) as [<-|Hne].
  - now rewrite prefix_nil, Ascii.eqb_refl.
  - symmetry. now apply Ascii.eqb_neq.
Qed.

(** [LastIndex] finds the last slash, or reports that there is none. *)
Lemma LastIndex_at_slash (pos : Z) (s : string) :
  (0 <= pos)%Z →
  (strings.LastIndex_at pos s "/" = (-1)%Z ∧ has_slash s = false)
  ∨ (∃ pre post, s = pre ++ "/" ++ post ∧ has_slash post = false
       ∧ strings.LastIndex_at pos s "/" = (pos + Z.of_nat (String.length pre))%Z).
Proof.
  revert pos. induction s as [|c s IH]; intros pos Hpos.
  - left. split; reflexivity.
  - cbn [strings.LastIndex_at has_slash].
    destruct (IH (pos + 1)%Z ltac:(lia)) as [[Hr Hs] | (pre & post & Hs & Hp & Hr)].
    + rewrite Hr, prefix_slash. cbn [Z.leb Z.compare].
      rewrite Ascii.eqb_sym.
      destruct (Ascii.eqb c "/") eqn:Ec.
      * right. apply Ascii.eqb_eq in Ec. subst c.
        exists "", s. repeat split; auto. simpl. lia.
      * left. now rewrite Hs.
    + right. rewrite Hr.
      replace (0 <=? pos + 1 + Z.of_nat (String.length pre))%Z with true
        by (symmetry; apply Z.leb_le; lia).
      exists (String c pre), post. subst s. repeat split; auto.
      simpl String.length. lia.
Qed.

(** The slice that [buildPath] takes is the final segment. *)
Lemma slice_after_LastIndex (p : string) :
  final_segment_of p
    (strings.slice_from p (Z.to_nat (strings.LastIndex p "/" + 1))).
Proof.
  unfold strings.LastIndex.
  destruct (LastIndex_at_slash 0 p ltac:(lia))
    as [[Hr Hs] | (pre & post & Hs & Hp & Hr)]; rewrite Hr.
  - simpl Z.to_nat. rewrite slice_from_0. split; auto.
  - replace (Z.to_nat (0 + Z.of_nat (String.length pre) + 1))
      with (String.length (pre ++ "/")) by (rewrite str_length_app; simpl; lia).
    subst p. rewrite <- str_app_assoc, slice_from_app. split; auto.
    right. exists pre. now rewrite str_app_assoc.
Qed.

Lemma has_slash_app (a b : string) :
  has_slash (a ++ b) = has_slash a || has_slash b.
Proof.
  induction a as [|c a IH]; simpl; [reflexivity|].
  now rewrite IH, orb_assoc.
Qed.

(** A path has one final segment. *)
Lemma final_segment_unique (p n1 n2 : string) :
  final_segment_of p n1 → final_segment_of p n2 → n1 = n2.
Proof.
  assert (Hkey : ∀ a b n m, has_slash n = false → has_slash m = false →
                 a ++ "/" ++ n = b ++ "/" ++ m → n = m).
  { induction a as [|c a IH]; intros b n m Hn Hm E.
    - destruct b as [|c' b]; simpl in E.
      + now injection E.
      + injection E as <- E. subst n. rewrite has_slash_app in Hn.
        simpl in Hn. now rewrite orb_true_r in Hn.
    - destruct b as [|c' b]; simpl in E.
      + injection E as -> E. subst m. rewrite has_slash_app in Hm.
        simpl in Hm. now rewrite orb_true_r in Hm.
      + injection E as _ E. eauto. }
  intros [H1 [E1 | [a E1]]] [H2 [E2 | [b E2]]]; subst p.
  - assumption.
  - subst n1. rewrite has_slash_app in H1. simpl in H1.
    now rewrite orb_true_r in H1.
  - subst n2. rewrite has_slash_app in H2. simpl in H2.
    now rewrite orb_true_r in H2.
  - eapply Hkey; eauto.
Qed.

Lemma Split_slash_plain (s : string) :
  has_slash s = false → strings.Split_slash s = [s].
Proof.
  induction s as [|c s IH]; simpl; intros H; [reflexivity|].
  apply orb_false_iff in H as [Hc Hs]. rewrite Hc, (IH Hs). reflexivity.
Qed.

Lemma Split_slash_app (a rest : string) :
  has_slash a = false →
  strings.Split_slash (a ++ "/" ++ rest) = a :: strings.Split_slash rest.
Proof.
  change ("/" ++ rest) with (String "/"%char rest).
  induction a as [|c a IH]; simpl; intros H; [reflexivity|].
  apply orb_false_iff in H as [Hc Hs]. rewrite Hc, (IH Hs). reflexivity.
Qed.

Lemma plain_inv (s : string) :
  plain s = true →
  has_slash s = false ∧ (s =? "") = false ∧ (s =? ".") = false
  ∧ (s =? "..") = false.
Proof.
  unfold plain. rewrite !andb_true_iff, !negb_true_iff. tauto.
Qed.

Lemma plain_not_rooted (s rest : string) :
  plain s = true → String.prefix "/" (s ++ rest) = false.
Proof.
  intros H. apply plain_inv in H as (Hs & He & _).
  destruct s as [|c s]; [discriminate|].
  simpl in Hs. apply orb_false_iff in Hs as [Hc _].
  change (String c s ++ rest) with (String c (s ++ rest)).
  now rewrite prefix_slash, Ascii.eqb_sym.
Qed.

Lemma app_not_empty (a b : string) : (a =? "") = false → (a ++ b =? "") = false.
Proof. destruct a; [discriminate | reflexivity]. Qed.

(** Joining two plain names puts one separator between them. *)
Lemma Join_plain (a b : string) :
  plain a = true → plain b = true → filepath.Join [a; b] = a ++ "/" ++ b.
Proof.
  intros Ha Hb.
  pose proof (plain_not_rooted a ("/" ++ b) Ha) as Hroot.
  apply plain_inv in Ha as (Has & Hae & Had & Hadd).
  apply plain_inv in Hb as (Hbs & Hbe & Hbd & Hbdd).
  cbn [filepath.Join strings.Join]. rewrite Hae.
  unfold filepath.Clean.
  rewrite (app_not_empty a _ Hae), Hroot, (Split_slash_app a b Has),
    (Split_slash_plain b Hbs).
  cbn [fold_left]. unfold filepath.Clean_step.
  rewrite Hae, Had, Hadd, Hbe, Hbd, Hbdd.
  cbn [rev List.app strings.Join].
  now rewrite (app_not_empty a _ Hae).
Qed.


End PathFacts.

(** ** Facts about the monad and the trace *)

Section TraceFacts.

Lemma gets_app (a b : list Event) : gets (a ++ b) = (gets a ++ gets b)%list.
Proof. apply omap_app. Qed.

Lemma execs_app (a b : list Event) : execs (a ++ b) = (execs a ++ execs b)%list.
Proof. apply omap_app. Qed.

Lemma creates_app (a b : list Event) :
  creates (a ++ b) = (creates a ++ creates b)%list.
Proof. apply omap_app. Qed.

Lemma logs_app (a b : list Event) : logs (a ++ b) = (logs a ++ logs b)%list.
Proof. apply omap_app. Qed.

Lemma download_lines_app (a b : list Event) :
  download_lines (a ++ b) = (download_lines a ++ download_lines b)%list.
Proof. unfold download_lines. now rewrite logs_app, List.filter_app. Qed.

Lemma Ok_inj {A} (a a' : A) (st st' : State) :
  Ok a st = Ok a' st' → a = a' ∧ st = st'.
Proof. intros E. now injection E. Qed.

End TraceFacts.

Ltac unfold_m :=
  unfold download, ensureDirExists, fileExists, os_Stat, os_Mkdir, os_Create,
    http_Get, io_Copy, log_Print, log_Fatalf, emit, bind, ret in *.

#[local] Arguments buildPath : simpl never.
#[local] Arguments downloading_line : simpl never.

Ltac red_fs := cbn [fs trace].

Ltac step_m := cbv beta iota; cbn [fs trace fst snd final_state].

Section DownloadFacts.

Context `{!NetURL, !Env}.

(** The destination exists and so does the directory: nothing is
    fetched, nothing is written. *)
Lemma download_skip (u : URL) (pkg : string) (st : State) :
  is_Some (fs st !! (buildPath u pkg).1) →
  is_Some (fs st !! (buildPath u pkg).2) →
  download u pkg st
  = Ok (buildPath u pkg).1
       (mkState (fs st)
          (trace st ++ [EvLog (downloading_line u pkg);
                        EvLog "File already exists, skipping."])).
Proof.
  intros [n Hp] [m Hd]. unfold downloading_line.
  destruct (buildPath u pkg) as [path dir] eqn:E. cbn [fst snd] in *.
  unfold_m. rewrite E. step_m. rewrite Hd. step_m. rewrite Hp. step_m.
  now rewrite <- List.app_assoc.
Qed.

(** The destination exists but the directory has to be made. *)
Lemma download_skip_mkdir (u : URL) (pkg : string) (st : State) :
  is_Some (fs st !! (buildPath u pkg).1) →
  fs st !! (buildPath u pkg).2 = None →
  download u pkg st
  = match mkdir_err (buildPath u pkg).2 with
    | Some e =>
        Fatal ("Error creating directory " ++ (buildPath u pkg).2 ++ ": " ++ e)
          (mkState (fs st)
             (trace st ++ [EvLog (downloading_line u pkg);
                           EvMkdir (buildPath u pkg).2]))
    | None =>
        Ok (buildPath u pkg).1
          (mkState (<[(buildPath u pkg).2 := Dir]> (fs st))
             (trace st ++ [EvLog (downloading_line u pkg);
                           EvMkdir (buildPath u pkg).2;
                           EvLog "File already exists, skipping."]))
    end.
Proof.
  intros [n Hp] Hd. unfold downloading_line.
  destruct (buildPath u pkg) as [path dir] eqn:E. cbn [fst snd] in *.
  assert (Hne : dir ≠ path) by congruence.
  unfold_m. rewrite E. step_m. rewrite Hd. step_m.
  destruct (mkdir_err dir) as [e|]; step_m.
  - now rewrite <- List.app_assoc.
  - rewrite lookup_insert_ne, Hp by exact Hne. step_m.
    now rewrite <- !List.app_assoc.
Qed.

(** The package directory is the destination itself: making sure the
    directory exists makes the destination exist. *)
Lemma download_directory (u : URL) (pkg : string) (st : State) :
  (buildPath u pkg).1 = (buildPath u pkg).2 →
  fs st !! (buildPath u pkg).2 = None →
  mkdir_err (buildPath u pkg).2 = None →
  download u pkg st
  = Ok (buildPath u pkg).1
       (mkState (<[(buildPath u pkg).2 := Dir]> (fs st))
          (trace st ++ [EvLog (downloading_line u pkg);
                        EvMkdir (buildPath u pkg).2;
                        EvLog "File already exists, skipping."])).
Proof.
  intros Heq Hd Hm. unfold downloading_line.
  destruct (buildPath u pkg) as [path dir] eqn:E. cbn [fst snd] in *.
  subst path.
  unfold_m. rewrite E. step_m. rewrite Hd. step_m. rewrite Hm. step_m.
  rewrite lookup_insert_eq. step_m. now rewrite <- !List.app_assoc.
Qed.

(** The destination is not there once the directory is: the file is
    created, then the URL is fetched, then the body is copied. *)
Lemma download_new (u : URL) (pkg : string) (st : State) :
  let path := (buildPath u pkg).1 in
  let st1 := entered u pkg st in
  dir_ready st (buildPath u pkg).2 →
  fs st1 !! path = None →
  download u pkg st
  = match create_err path with
    | Some e =>
        Fatal ("Error creating file " ++ path ++ ": " ++ e)
          (mkState (fs st1) (trace st1 ++ [EvCreate path]))
    | None =>
        match http (URL_String u) with
        | inl e =>
            Fatal ("Error downloading file " ++ URL_String u ++ ": " ++ e)
              (mkState (<[path := File ""]> (fs st1))
                 (trace st1 ++ [EvCreate path; EvGet (URL_String u)]))
        | inr resp =>
            let st2 :=
              mkState (<[path := File (Body resp)]> (<[path := File ""]> (fs st1)))
                (trace st1 ++ [EvCreate path; EvGet (URL_String u)]) in
            match ReadErr resp with
            | Some e =>
                Fatal ("Error downloading file " ++ URL_String u ++ " to "
                       ++ path ++ ": " ++ e) st2
            | None => Ok path st2
            end
        end
    end.
Proof.
  intros path st1 Hready Hp. subst path st1.
  unfold entered, downloading_line, dir_ready in *.
  destruct (buildPath u pkg) as [path dir] eqn:E. cbn [fst snd] in *.
  unfold_m. rewrite E. step_m.
  destruct (fs st !! dir) as [n|] eqn:Hd; step_m.
  - cbn [fs trace] in Hp. rewrite Hp. step_m.
    destruct (create_err path) as [e|]; step_m; [reflexivity|].
    destruct (http (URL_String u)) as [e|resp]; step_m;
      [now rewrite <- !List.app_assoc|].
    destruct (ReadErr resp) as [e|]; now rewrite <- !List.app_assoc.
  - destruct Hready as [[n Hn]|Hm]; [discriminate|]. rewrite Hm. step_m.
    cbn [fs trace] in Hp. rewrite Hp. step_m.
    destruct (create_err path) as [e|]; step_m;
      [now rewrite <- !List.app_assoc|].
    destruct (http (URL_String u)) as [e|resp]; step_m;
      [now rewrite <- !List.app_assoc|].
    destruct (ReadErr resp) as [e|]; now rewrite <- !List.app_assoc.
Qed.

Lemma download_mkdir_fatal (u : URL) (pkg : string) (st : State) (e : string) :
  fs st !! (buildPath u pkg).2 = None →
  mkdir_err (buildPath u pkg).2 = Some e →
  download u pkg st
  = Fatal ("Error creating directory " ++ (buildPath u pkg).2 ++ ": " ++ e)
      (mkState (fs st)
         (trace st ++ [EvLog (downloading_line u pkg);
                       EvMkdir (buildPath u pkg).2])).
Proof.
  intros Hd Hm. unfold downloading_line.
  destruct (buildPath u pkg) as [path dir] eqn:E. cbn [fst snd] in *.
  unfold_m. rewrite E. step_m. rewrite Hd. step_m. rewrite Hm. step_m.
  now rewrite <- List.app_assoc.
Qed.

Lemma entered_trace (u : URL) (pkg : string) (st : State) :
  ∃ new, trace (entered u pkg st)
         = (trace st ++ EvLog (downloading_line u pkg) :: new)%list
    ∧ download_lines new = [] ∧ gets new = [] ∧ creates new = [].
Proof.
  unfold entered. destruct (fs st !! (buildPath u pkg).2); cbn [trace].
  - exists []. repeat split.
  - exists [EvMkdir (buildPath u pkg).2]. repeat split.
Qed.

(** Whatever happens, a call of [download] logs its line first, logs no
    second such line, and fetches at most its own URL, at most once;
    what it returns is the destination path. *)
Lemma download_outcome (u : URL) (pkg : string) (st : State) :
  ∃ new,
    trace (final_state (download u pkg st))
    = (trace st ++ EvLog (downloading_line u pkg) :: new)%list
    ∧ download_lines new = []
    ∧ (gets new = [] ∨ gets new = [URL_String u])
    ∧ (∀ p st', download u pkg st = Ok p st' → p = (buildPath u pkg).1).
Proof.
  destruct (fs st !! (buildPath u pkg).2) as [n|] eqn:Hd.
  - destruct (fs st !! (buildPath u pkg).1) as [m|] eqn:Hp.
    + rewrite download_skip by eauto. cbn [final_state trace].
      exists [EvLog "File already exists, skipping."].
      repeat split; auto. congruence.
    + pose proof (download_new u pkg st) as Hn. cbv zeta in Hn.
      rewrite Hn; clear Hn.
      2:{ left. eauto. }
      2:{ unfold entered. now rewrite Hd. }
      unfold entered. rewrite Hd. cbn [fs trace].
      destruct (create_err _) as [e|]; [|destruct (http _) as [e|resp];
        [|destruct (ReadErr resp) as [e|]]]; cbn [final_state trace];
        rewrite <- List.app_assoc; eexists; (split; [reflexivity|]);
        repeat split; auto; congruence.
  - destruct (mkdir_err (buildPath u pkg).2) as [e|] eqn:Hm.
    + rewrite (download_mkdir_fatal u pkg st e) by auto.
      cbn [final_state trace]. eexists; (split; [reflexivity|]).
      repeat split; auto. congruence.
    + destruct (<[(buildPath u pkg).2 := Dir]> (fs st) !! (buildPath u pkg).1)
        as [m|] eqn:Hp.
      * destruct (decide ((buildPath u pkg).1 = (buildPath u pkg).2)) as [Heq|Hne].
        -- rewrite download_directory by auto. cbn [final_state trace].
           eexists; (split; [reflexivity|]). repeat split; auto. congruence.
        -- rewrite lookup_insert_ne in Hp by congruence.
           rewrite download_skip_mkdir by eauto. rewrite Hm.
           cbn [final_state trace].
           eexists; (split; [reflexivity|]). repeat split; auto. congruence.
      * pose proof (download_new u pkg st) as Hn. cbv zeta in Hn.
        rewrite Hn; clear Hn.
        2:{ now right. }
        2:{ unfold entered. now rewrite Hd. }
        unfold entered. rewrite Hd. cbn [fs trace].
        destruct (create_err _) as [e|]; [|destruct (http _) as [e|resp];
          [|destruct (ReadErr resp) as [e|]]]; cbn [final_state trace];
          rewrite <- List.app_assoc; eexists; (split; [reflexivity|]);
          repeat split; auto; congruence.
Qed.

(** After a call that returned, the destination and its directory are
    both there, and nothing that was on disk before has gone or
    changed. *)
Lemma download_ok_present (u : URL) (pkg : string) (st st' : State) (p : string) :
  download u pkg st = Ok p st' →
  is_Some (fs st' !! (buildPath u pkg).1)
  ∧ is_Some (fs st' !! (buildPath u pkg).2)
  ∧ fs st ⊆ fs st'.
Proof.
  intros Hdl.
  destruct (fs st !! (buildPath u pkg).2) as [n|] eqn:Hd.
  - destruct (fs st !! (buildPath u pkg).1) as [m|] eqn:Hp.
    + rewrite download_skip in Hdl by eauto. apply Ok_inj in Hdl as [_ <-].
      red_fs. eauto.
    + pose proof (download_new u pkg st) as Hn. cbv zeta in Hn.
      rewrite Hn in Hdl; clear Hn.
      2:{ left. eauto. }
      2:{ unfold entered. now rewrite Hd. }
      unfold entered in Hdl. rewrite Hd in Hdl. cbn [fs trace] in Hdl.
      destruct (create_err _) as [e|]; [discriminate|].
      destruct (http _) as [e|resp]; [discriminate|].
      destruct (ReadErr resp) as [e|]; [discriminate|].
      apply Ok_inj in Hdl as [_ <-]. red_fs. rewrite insert_insert_eq.
      rewrite lookup_insert_eq. split; [eauto|]. split.
      * rewrite lookup_insert_ne, Hd by congruence. eauto.
      * now apply insert_subseteq.
  - destruct (mkdir_err (buildPath u pkg).2) as [e|] eqn:Hm.
    + rewrite (download_mkdir_fatal u pkg st e) in Hdl by auto. discriminate.
    + destruct (<[(buildPath u pkg).2 := Dir]> (fs st) !! (buildPath u pkg).1)
        as [m|] eqn:Hp.
      * destruct (decide ((buildPath u pkg).1 = (buildPath u pkg).2)) as [Heq|Hne].
        -- rewrite download_directory in Hdl by auto. apply Ok_inj in Hdl as [_ <-].
           red_fs. rewrite Heq, lookup_insert_eq.
           repeat split; eauto. now apply insert_subseteq.
        -- rewrite lookup_insert_ne in Hp by congruence.
           rewrite download_skip_mkdir in Hdl by eauto. rewrite Hm in Hdl.
           apply Ok_inj in Hdl as [_ <-]. red_fs.
           rewrite lookup_insert_eq, lookup_insert_ne, Hp by congruence.
           repeat split; eauto. now apply insert_subseteq.
      * pose proof (download_new u pkg st) as Hn. cbv zeta in Hn.
        rewrite Hn in Hdl; clear Hn.
        2:{ now right. }
        2:{ unfold entered. now rewrite Hd. }
        unfold entered in Hdl. rewrite Hd in Hdl. cbn [fs trace] in Hdl.
        destruct (create_err _) as [e|]; [discriminate|].
        destruct (http _) as [e|resp]; [discriminate|].
        destruct (ReadErr resp) as [e|]; [discriminate|].
        apply Ok_inj in Hdl as [_ <-]. red_fs. rewrite insert_insert_eq.
        rewrite lookup_insert_eq. split; [eauto|].
        assert (Hne : (buildPath u pkg).2 ≠ (buildPath u pkg).1).
        { intros Heq. rewrite Heq, lookup_insert_eq in Hp. discriminate. }
        split.
        -- rewrite lookup_insert_ne, lookup_insert_eq by congruence. eauto.
        -- etrans; [apply (insert_subseteq _ (buildPath u pkg).2 Dir Hd)|].
           now apply insert_subseteq.
Qed.

(** In a cooperative environment [download] returns. *)
Lemma download_cooperative (u : URL) (pkg : string) (st : State) :
  cooperative →
  ∃ st', download u pkg st = Ok (buildPath u pkg).1 st'.
Proof.
  intros (Hmk & Hcr & Hnet).
  destruct (Hnet (URL_String u)) as (resp & Hh & Hr).
  destruct (fs st !! (buildPath u pkg).2) as [n|] eqn:Hd.
  - destruct (fs st !! (buildPath u pkg).1) as [m|] eqn:Hp.
    + rewrite download_skip by eauto. eauto.
    + pose proof (download_new u pkg st) as Hn. cbv zeta in Hn.
      rewrite Hn; clear Hn.
      2:{ left. eauto. }
      2:{ unfold entered. now rewrite Hd. }
      rewrite Hcr, Hh. cbv zeta. rewrite Hr. eauto.
  - destruct (<[(buildPath u pkg).2 := Dir]> (fs st) !! (buildPath u pkg).1)
      as [m|] eqn:Hp.
    + destruct (decide ((buildPath u pkg).1 = (buildPath u pkg).2)) as [Heq|Hne].
      * rewrite download_directory by auto. eauto.
      * rewrite lookup_insert_ne in Hp by congruence.
        rewrite download_skip_mkdir, Hmk by eauto. eauto.
    + pose proof (download_new u pkg st) as Hn. cbv zeta in Hn.
      rewrite Hn; clear Hn.
      2:{ right. apply Hmk. }
      2:{ unfold entered. now rewrite Hd. }
      rewrite Hcr, Hh. cbv zeta. rewrite Hr. eauto.
Qed.

End DownloadFacts.

(** ** Destination paths *)

Lemma buildPath_final (u : URL) (pkg name : string) :
  final_segment_of (Path u) name →
  buildPath u pkg
  = (filepath.Join [filepath.FromSlash pkg; filepath.FromSlash name],
     filepath.FromSlash pkg).
Proof.
  intros Hname.
  pose proof (final_segment_unique _ _ _ (slice_after_LastIndex (Path u)) Hname) as Heq.
  unfold buildPath. now rewrite Heq.
Qed.


(** C6. The file name that [buildPath] takes from a URL is the text after
    the last slash of the URL's path (every path has exactly one such
    final segment), the destination path is [filepath.Join] of the package
    directory and that name, and the directory is the package name; for a
    plain package name and a plain file name the destination is the two
    with one separator between them. *)
Theorem buildPath_destination (u : URL) (pkg : string) :
  (∃ name, final_segment_of (Path u) name)
  ∧ ∀ name, final_segment_of (Path u) name →
      buildPath u pkg
      = (filepath.Join [filepath.FromSlash pkg; filepath.FromSlash name],
         filepath.FromSlash pkg)
      ∧ (plain pkg = true → plain name = true →
         (buildPath u pkg).1 = pkg ++ "/" ++ name).
Proof.
  pose proof (slice_after_LastIndex (Path u)) as Hslice. split.
  - eexists. exact Hslice.
  - intros name Hname.
    pose proof (buildPath_final u pkg name Hname) as Hb.
    split; [exact Hb|]. intros Hp Hn. rewrite Hb. cbn [fst].
    unfold filepath.FromSlash. now apply Join_plain.
Qed.

Lemma buildPath_destination_witness :
  buildPath (mkURL "https" "" "packages.debian.org" "/buster/foo_1.0.dsc" "" "")
            "foo"
  = ("foo/foo_1.0.dsc", "foo").
Proof.
  assert (Hseg : final_segment_of "/buster/foo_1.0.dsc" "foo_1.0.dsc").
  { split; [reflexivity|]. right. exists "/buster". reflexivity. }
  exact (proj1 (proj2 (buildPath_destination
                         (mkURL "https" "" "packages.debian.org"
                                "/buster/foo_1.0.dsc" "" "") "foo")
                      "foo_1.0.dsc" Hseg)).
Defined.

(** ** Repeated downloads *)

Section DownloadTheorems.

Context `{!NetURL, !Env}.






End DownloadTheorems.

(** ** Facts about [fetch] and [extract] *)

Section FetchFacts.

Context `{!NetURL, !Env}.

Lemma linkURL_of_some (d : dpkgSrc) (l : string) (u : URL) (st : State) :
  resolve_href (BaseURL d) l = Some u → linkURL_of d l st = Ok u st.
Proof.
  unfold resolve_href, linkURL_of. destruct (Parse l) as [e|v]; [discriminate|].
  destruct (IsAbs v); cbn [negb].
  - intros [= ->]. reflexivity.
  - destruct (BaseURL d); [|discriminate]. intros [= ->]. reflexivity.
Qed.

Lemma linkURL_of_ok (d : dpkgSrc) (l : string) (u : URL) (st st' : State) :
  linkURL_of d l st = Ok u st' →
  resolve_href (BaseURL d) l = Some u ∧ st' = st.
Proof.
  unfold resolve_href, linkURL_of. destruct (Parse l) as [e|v]; [discriminate|].
  destruct (IsAbs v); cbn [negb].
  - intros E. apply Ok_inj in E as [-> ->]. auto.
  - destruct (BaseURL d); [|discriminate].
    intros E. apply Ok_inj in E as [<- ->]. auto.
Qed.

Lemma fetch_body_ok (d d' : dpkgSrc) (l : string) (st st' : State) :
  fetch_body d l st = Ok d' st' →
  ∃ u, resolve_href (BaseURL d) l = Some u
       ∧ download u (Name d) st = Ok (buildPath u (Name d)).1 st'
       ∧ d' = (if l =? DSC d then set_DscPath (buildPath u (Name d)).1 d else d).
Proof.
  unfold fetch_body, bind. intros E.
  destruct (linkURL_of d l st) as [u st0|] eqn:Hl; [|discriminate].
  apply linkURL_of_ok in Hl as [Hres ->].
  destruct (download u (Name d) st) as [p st1|] eqn:Hdl; [|discriminate].
  destruct (download_outcome u (Name d) st) as (_ & _ & _ & _ & Hret).
  pose proof (Hret _ _ Hdl) as ->.
  exists u. split; [exact Hres|].
  destruct (l =? DSC d); apply Ok_inj in E as [<- <-]; auto.
Qed.

(** What [fetch] did when it returned: three downloads, one after the
    other, of the three hrefs resolved against the base URL of the
    record it was called on. *)
Lemma fetch_ok (d d' : dpkgSrc) (st st' : State) :
  fetch d st = Ok d' st' →
  ∃ u1 u2 u3 st1 st2,
    resolve_href (BaseURL d) (DSC d) = Some u1
    ∧ resolve_href (BaseURL d) (Debian d) = Some u2
    ∧ resolve_href (BaseURL d) (Orig d) = Some u3
    ∧ download u1 (Name d) st = Ok (buildPath u1 (Name d)).1 st1
    ∧ download u2 (Name d) st1 = Ok (buildPath u2 (Name d)).1 st2
    ∧ download u3 (Name d) st2 = Ok (buildPath u3 (Name d)).1 st'
    ∧ d' = set_DscPath
             (if Orig d =? DSC d then (buildPath u3 (Name d)).1
              else if Debian d =? DSC d then (buildPath u2 (Name d)).1
              else (buildPath u1 (Name d)).1) d.
Proof.
  unfold fetch. cbn [fetch_loop]. unfold bind at 1. intros E.
  destruct (fetch_body d (DSC d) st) as [d1 st1|] eqn:E1; [|discriminate].
  apply fetch_body_ok in E1 as (u1 & R1 & D1 & ->).
  rewrite String.eqb_refl in E.
  unfold bind at 1 in E.
  destruct (fetch_body _ (Debian d) st1) as [d2 st2|] eqn:E2; [|discriminate].
  apply fetch_body_ok in E2 as (u2 & R2 & D2 & ->).
  unfold bind at 1 in E.
  destruct (fetch_body _ (Orig d) st2) as [d3 st3|] eqn:E3; [|discriminate].
  apply fetch_body_ok in E3 as (u3 & R3 & D3 & ->).
  apply Ok_inj in E as [<- <-].
  exists u1, u2, u3, st1, st2.
  destruct (Debian d =? DSC d) eqn:Edeb; destruct (Orig d =? DSC d) eqn:Eorig;
    cbn [set_DscPath Name DSC Debian Orig BaseURL DscPath] in *;
    rewrite ?Edeb, ?Eorig in *;
    cbn [set_DscPath Name DSC Debian Orig BaseURL DscPath] in *;
    rewrite ?Eorig; repeat split; auto.
Qed.



Lemma log_lines_run (lines : list string) (st : State) :
  log_lines lines st = Ok tt (mkState (fs st) (trace st ++ map EvLog lines)).
Proof.
  revert st. induction lines as [|x lines IH]; intros st; cbn [log_lines map].
  - unfold ret. rewrite List.app_nil_r. now destruct st.
  - unfold bind, log_Print, emit. rewrite IH. cbn [fs trace].
    now rewrite <- List.app_assoc.
Qed.



Lemma HasPrefix_app (p s : string) : strings.HasPrefix (p ++ s) p = true.
Proof.
  unfold strings.HasPrefix, strings.slice_to. rewrite str_length_app.
  apply andb_true_iff. split; [apply Nat.leb_le; lia|].
  apply String.eqb_eq. induction p as [|c p IH]; simpl.
  - now destruct s.
  - now rewrite IH.
Qed.

Lemma download_lines_line (u : URL) (pkg : string) :
  download_lines [EvLog (downloading_line u pkg)] = [downloading_line u pkg].
Proof.
  change (download_lines [EvLog (downloading_line u pkg)])
    with (if strings.HasPrefix (downloading_line u pkg) "Downloading "
          then [downloading_line u pkg] else []).
  unfold downloading_line at 1. now rewrite HasPrefix_app.
Qed.

(** The trace of a call of [download], split at its first line. *)
Lemma download_trace (u : URL) (pkg : string) (st st' : State) (p : string) :
  download u pkg st = Ok p st' →
  download_lines (trace st')
  = (download_lines (trace st) ++ [downloading_line u pkg])%list
  ∧ ∃ g, gets (trace st') = (gets (trace st) ++ g)%list
         ∧ (g = [] ∨ g = [URL_String u]).
Proof.
  intros Hdl.
  destruct (download_outcome u pkg st) as (new & Ht & Hl & Hg & _).
  rewrite Hdl in Ht. cbn [final_state] in Ht. rewrite Ht.
  change (EvLog (downloading_line u pkg) :: new)
    with ([EvLog (downloading_line u pkg)] ++ new)%list.
  rewrite !download_lines_app, !gets_app, download_lines_line, Hl.
  split; [now rewrite List.app_nil_r|].
  exists (gets new). split; [reflexivity|exact Hg].
Qed.

End FetchFacts.

(** ** The fetch step *)

Section FetchTheorems.

Context `{!NetURL, !Env}.


(** C5. An href that parses and has a scheme is handed to [download]
    as parsed; one without a scheme is resolved by [ResolveReference]
    against the base URL of the record.  The outcome does not depend on
    the state of the world, and [fetch] keeps the base URL: the second
    and third hrefs are resolved against the base URL that [fetch] was
    called with, whatever the earlier downloads did. *)
Theorem resolve_against_base (d : dpkgSrc) :
  (∀ l u st, Parse l = inr u → IsAbs u = true → linkURL_of d l st = Ok u st)
  ∧ (∀ l u base st,
       Parse l = inr u → IsAbs u = false → BaseURL d = Some base →
       linkURL_of d l st = Ok (ResolveReference base u) st)
  ∧ (∀ l u st st1 st2, linkURL_of d l st = Ok u st1 → linkURL_of d l st2 = Ok u st2)
  ∧ (∀ d' st st', fetch d st = Ok d' st' →
       BaseURL d' = BaseURL d
       ∧ ∃ u1 u2 u3 st1 st2,
           resolve_href (BaseURL d) (DSC d) = Some u1
           ∧ resolve_href (BaseURL d) (Debian d) = Some u2
           ∧ resolve_href (BaseURL d) (Orig d) = Some u3
           ∧ download u1 (Name d) st = Ok (buildPath u1 (Name d)).1 st1
           ∧ download u2 (Name d) st1 = Ok (buildPath u2 (Name d)).1 st2
           ∧ download u3 (Name d) st2 = Ok (buildPath u3 (Name d)).1 st').
Proof.
  split; [|split; [|split]].
  - intros l u st Hp Ha. apply linkURL_of_some.
    unfold resolve_href. now rewrite Hp, Ha.
  - intros l u base st Hp Ha Hb. apply linkURL_of_some.
    unfold resolve_href. now rewrite Hp, Ha, Hb.
  - intros l u st st1 st2 Hl. apply linkURL_of_ok in Hl as [Hr _].
    now apply linkURL_of_some.
  - intros d' st st' Hf.
    destruct (fetch_ok _ _ _ _ Hf)
      as (u1 & u2 & u3 & st1 & st2 & R1 & R2 & R3 & D1 & D2 & D3 & ->).
    split; [reflexivity|]. exists u1, u2, u3, st1, st2. auto 10.
Qed.


End FetchTheorems.

(** ** The two commands without a package name *)

(** C8. Called with no argument, both commands return an error without
    touching the network; the error of [fetch] names [fetch], and the
    error of [build] names [fetch] as well, not [build]. *)
Theorem missing_name_error `{!NetURL, !HTMLTokenizer, !Env} (st : State) :
  commandFetch (mkContext []) st = Ok (Some "fetch: no package name provided") st
  ∧ commandBuild (mkContext []) st
    = Ok (Some "fetch: no package name provided")
         (mkState (fs st) (trace st ++ [EvLog "build"]))
  ∧ gets (trace (final_state (commandBuild (mkContext []) st))) = gets (trace st)
  ∧ strings.Contains "fetch: no package name provided" "fetch" = true
  ∧ strings.Contains "fetch: no package name provided" "build" = false.
Proof.
  repeat split.
  change (commandBuild (mkContext []) st)
    with (Ok (Some "fetch: no package name provided")
            (mkState (fs st) (trace st ++ [EvLog "build"]))).
  cbn [final_state trace]. rewrite gets_app. cbn. now rewrite List.app_nil_r.
Qed.

(** ** The theorems on concrete worlds *)

Section Runs.

Import Sample.




(** The other failure: the body breaks off, and the two bytes that
    arrived stay in the file. *)
Example download_truncated :
  ∃ st', @download RefURL.lib truncating dsc_url "foo" empty_state
         = Fatal ("Error downloading file "
                  ++ "https://packages.debian.org/buster/foo_1.0.dsc"
                  ++ " to foo/foo_1.0.dsc: unexpected EOF") st'
         ∧ fs st' !! "foo/foo_1.0.dsc" = Some (File "da").
Proof. eexists. split; [vm_compute; reflexivity|reflexivity]. Qed.


(** The same run, computed: the fetches in their order. *)
Example fetch_order_run :
  ∃ d' st',
    @fetch RefURL.lib up foo empty_state = Ok d' st'
    ∧ gets (trace st')
      = ["https://packages.debian.org/buster/foo_1.0.dsc";
         "https://packages.debian.org/buster/foo_1.0.debian.tar.xz";
         "https://packages.debian.org/buster/foo_1.0.orig.tar.gz"].
Proof. eexists _, _. split; [vm_compute; reflexivity|reflexivity]. Qed.

(** C5 on an absolute and on a relative href. *)
Lemma resolve_against_base_witness :
  (∀ st, @linkURL_of RefURL.lib foo "http://deb.debian.org/pool/foo_1.0.dsc" st
         = Ok (mkURL "http" "" "deb.debian.org" "/pool/foo_1.0.dsc" "" "") st)
  ∧ (∀ st, @linkURL_of RefURL.lib foo "foo_1.0.dsc" st = Ok dsc_url st).
Proof.
  destruct (@resolve_against_base RefURL.lib up foo) as (Habs & Hrel & _).
  split; intros st.
  - apply Habs; reflexivity.
  - apply (Hrel "foo_1.0.dsc"
             (mkURL "" "" "" "foo_1.0.dsc" "" "") base st); reflexivity.
Defined.



(** The end-to-end scenario: three files in [foo/], fetched in the
    order description, Debian-diff, original, and the tool run on the
    description file. *)
Example end_to_end :
  ∃ st', @commandFetch RefURL.lib anchors_per_line
           {| http := fun u =>
                if u =? "https://packages.debian.org/buster/foo"
                then inr (mkResponse
                            ("foo_1.0.dsc" ++ String (ascii_of_nat 10) ""
                             ++ "foo_1.0.orig.tar.gz" ++ String (ascii_of_nat 10) ""
                             ++ "foo_1.0.debian.tar.xz" ++ String (ascii_of_nat 10) ""
                             ++ "changelog") None)
                else inr (mkResponse "data" None);
              mkdir_err := fun _ => None;
              create_err := fun _ => None;
              tool := dpkg_source |}
           (mkContext ["foo"]) empty_state
         = Ok None st'
    ∧ fs st'
      = list_to_map [("foo", Dir); ("foo/foo_1.0.dsc", File "data");
                     ("foo/foo_1.0.orig.tar.gz", File "data");
                     ("foo/foo_1.0.debian.tar.xz", File "data")]
    ∧ execs (trace st')
      = [("foo", ["dpkg-source"; "-x"; "--no-check"; "foo_1.0.dsc"])].
Proof.
  eexists. split; [vm_compute; reflexivity|]. split; [|reflexivity].
  vm_compute. reflexivity.
Qed.

End Runs.

(** * Further properties of the code *)

(** ** The link extractor *)

(** X1. [getHref] reports an href exactly when some attribute has the key
    [href], and then returns the value of the first such attribute; with
    no such attribute it returns the empty string. *)
Theorem getHref_first (t : Token) :
  (∀ v, getHref t = (v, true) ↔
        ∃ pre post, Attr t = (pre ++ mkAttribute "href" v :: post)%list
                    ∧ ∀ a, In a pre → Key a ≠ "href")
  ∧ ((getHref t).2 = false ↔ ∀ a, In a (Attr t) → Key a ≠ "href")
  ∧ ((getHref t).2 = false → (getHref t).1 = "").
Proof.
  unfold getHref. induction (Attr t) as [|a attr IH]; cbn [getHref_loop].
  - split; [|split].
    + intros v. split; [discriminate|]. intros (pre & post & E & _).
      destruct pre; discriminate E.
    + split; [intros _ a []|reflexivity].
    + reflexivity.
  - destruct IH as (IH1 & IH2 & IH3).
    destruct (Key a =? "href") eqn:Ek.
    + apply String.eqb_eq in Ek. split; [|split].
      * intros v. split.
        -- intros [= <-]. exists [], attr. split; [|intros ? []].
           destruct a; cbn in *; now subst.
        -- intros (pre & post & E & Hpre). destruct pre as [|b pre].
           ++ injection E as -> _. reflexivity.
           ++ injection E as -> _. destruct (Hpre b); [now left|exact Ek].
      * cbn [snd]. split; [discriminate|].
        intros Hno. destruct (Hno a); [now left|exact Ek].
      * discriminate.
    + apply String.eqb_neq in Ek. split; [|split].
      * intros v. rewrite IH1. split.
        -- intros (pre & post & -> & Hpre). exists (a :: pre), post.
           split; [reflexivity|]. intros b [<- | Hb]; auto.
        -- intros (pre & post & E & Hpre). destruct pre as [|b pre].
           ++ injection E as -> _. now destruct Ek.
           ++ injection E as _ ->. exists pre, post. split; [reflexivity|].
              intros c Hc. apply Hpre. now right.
      * rewrite IH2. split.
        -- intros Hno b [<- | Hb]; auto.
        -- intros Hno b Hb. apply Hno. now right.
      * exact IH3.
Qed.

Lemma getLinks_loop_spec (links : list string) (toks : list Token) :
  getLinks_loop links toks = (links ++ omap anchor_href (before_error toks))%list.
Proof.
  revert links. induction toks as [|t toks IH]; intros links;
    [cbn; now rewrite List.app_nil_r|].
  destruct t as [ty data attr].
  destruct ty;
    cbn [getLinks_loop before_error omap list_omap is_error anchor_href Type_ Data];
    try apply IH.
  - now rewrite List.app_nil_r.
  - destruct (data =? "a"); [|apply IH].
    destruct (getHref _) as [href [|]]; [|apply IH].
    rewrite IH, <- List.app_assoc. reflexivity.
Qed.

Lemma before_error_app (pre post : list Token) (e : Token) :
  is_error e = true →
  before_error (pre ++ e :: post) = before_error pre.
Proof.
  intros He. induction pre as [|t pre IH]; cbn [before_error List.app].
  - now rewrite He.
  - destruct (is_error t); [reflexivity|now rewrite IH].
Qed.

(** X2. [getLinks] returns, in document order, the hrefs of the start
    tags named [a] that come before the first error token: everything
    from the first error token on is ignored, and so is every token that
    is not a start tag named [a] or has no href (a self-closing anchor
    included). *)
Theorem getLinks_anchors `{!HTMLTokenizer} (body : string) :
  getLinks body = omap anchor_href (before_error (tokens_of body))
  ∧ (∀ pre e post,
       tokens_of body = (pre ++ e :: post)%list → Type_ e = ErrorToken →
       getLinks body = getLinks_loop [] pre)
  ∧ (∀ h, In h (getLinks body) →
       ∃ t, In t (tokens_of body) ∧ Type_ t = StartTagToken ∧ Data t = "a"
            ∧ getHref t = (h, true)).
Proof.
  unfold getLinks. rewrite getLinks_loop_spec. cbn [List.app].
  split; [reflexivity|]. split.
  - intros pre e post -> He. rewrite getLinks_loop_spec. cbn [List.app].
    rewrite before_error_app; [reflexivity|]. unfold is_error. now rewrite He.
  - intros h Hh. apply list_elem_of_In, list_elem_of_omap in Hh as (t & Ht & Ha).
    exists t. split.
    + apply list_elem_of_In in Ht. clear -Ht.
      induction (tokens_of body) as [|x l IH]; cbn [before_error] in Ht; [destruct Ht|].
      destruct (is_error x); [destruct Ht|]. destruct Ht as [<- | Ht]; [now left|].
      right. auto.
    + unfold anchor_href in Ha. destruct (Type_ t); try discriminate Ha.
      destruct (Data t =? "a") eqn:Ed; [|discriminate Ha].
      apply String.eqb_eq in Ed.
      destruct (getHref t) as [href [|]]; [|discriminate Ha].
      injection Ha as ->. auto.
Qed.

Lemma getLinks_anchors_witness :
  @getLinks Sample.anchors_per_line
    ("foo_1.0.dsc" ++ String (ascii_of_nat 10) "changelog")
  = ["foo_1.0.dsc"; "changelog"].
Proof.
  rewrite (proj1 (proj2 (@getLinks_anchors Sample.anchors_per_line _))
             [mkToken StartTagToken "a" [mkAttribute "href" "foo_1.0.dsc"];
              mkToken StartTagToken "a" [mkAttribute "href" "changelog"]]
             (mkToken ErrorToken "" []) []); reflexivity.
Defined.

(** ** The classifier, further *)

Lemma fillFromLinks_other (d : dpkgSrc) (links : list string) :
  Name (fillFromLinks d links) = Name d
  ∧ BaseURL (fillFromLinks d links) = BaseURL d
  ∧ DscPath (fillFromLinks d links) = DscPath d.
Proof.
  revert d. induction links as [|l links IH]; intros d; cbn [fillFromLinks]; auto.
  destruct (IH (fillFromLinks_body d l)) as (-> & -> & ->).
  apply fillFromLinks_body_other.
Qed.

Lemma filter_filter_imp {A} (f g : A → bool) (l : list A) :
  (∀ x, f x = true → g x = true) →
  List.filter f (List.filter g l) = List.filter f l.
Proof.
  intros Himp. induction l as [|x l IH]; cbn [List.filter]; [reflexivity|].
  destruct (g x) eqn:Eg; cbn [List.filter].
  - now rewrite IH.
  - destruct (f x) eqn:Ef; [|exact IH]. rewrite (Himp x Ef) in Eg. discriminate.
Qed.

Lemma matches_keeps (r : Role) (l : string) : matches r l = true → keeps l = true.
Proof.
  intros H. unfold keeps. apply existsb_exists. exists r. split; [|exact H].
  destruct r; cbn; auto.
Qed.

(** X3. Running the classifier again on the same list changes nothing:
    the three roles, and the rest of the record, are as after the first
    run. *)
Theorem fillFromLinks_idempotent (d : dpkgSrc) (links : list string) :
  fillFromLinks (fillFromLinks d links) links = fillFromLinks d links.
Proof.
  destruct (fillFromLinks_other (fillFromLinks d links) links) as (Hn & Hb & Hp).
  apply dpkgSrc_ext; auto. intros r. rewrite !fillFromLinks_role.
  now destruct (last (List.filter (matches r) links)).
Qed.

(** X4. The classifier of the final version reads nothing but the hrefs
    that the filter of the intermediate version keeps: filtering the list
    first gives the same record. *)
Theorem fillFromLinks_filterLinks (d : dpkgSrc) (links : list string) :
  fillFromLinks d (filterLinks links) = fillFromLinks d links.
Proof.
  destruct (fillFromLinks_other d (filterLinks links)) as (Hn & Hb & Hp).
  destruct (fillFromLinks_other d links) as (Hn' & Hb' & Hp').
  apply dpkgSrc_ext; try congruence. intros r. rewrite !fillFromLinks_role.
  unfold filterLinks. rewrite filterLinks_loop_filter. cbn [List.app].
  rewrite filter_filter_imp; [reflexivity|]. apply matches_keeps.
Qed.

Lemma matches_nonempty (r : Role) : matches r "" = false.
Proof. destruct r; reflexivity. Qed.

(** X5. The classifier leaves the name, the base URL and the local path
    of the record alone; and starting from a new record, a role is absent
    afterwards exactly when no href of the list matches its rule, and a
    role that is present holds an href of the list that matches its
    rule. *)
Theorem fillFromLinks_absent_iff (links : list string) (r : Role) :
  (∀ d, Name (fillFromLinks d links) = Name d
        ∧ BaseURL (fillFromLinks d links) = BaseURL d
        ∧ DscPath (fillFromLinks d links) = DscPath d)
  ∧ (absent r (fillFromLinks new_dpkgSrc links) ↔ ∀ l, In l links → ¬ rule r l)
  ∧ (¬ absent r (fillFromLinks new_dpkgSrc links) →
     In (role_href r (fillFromLinks new_dpkgSrc links)) links
     ∧ rule r (role_href r (fillFromLinks new_dpkgSrc links))).
Proof.
  split; [intros d; apply fillFromLinks_other|].
  unfold absent. rewrite fillFromLinks_role.
  replace (role_href r new_dpkgSrc) with "" by (now destruct r).
  destruct (last (List.filter (matches r) links)) as [x|] eqn:L; cbn [default].
  - apply last_Some in L as [l' L].
    assert (Hin : In x (List.filter (matches r) links))
      by (rewrite L; apply List.in_or_app; right; now left).
    apply List.filter_In in Hin as [Hin Hm].
    assert (Hx : x ≠ "") by (intros ->; rewrite matches_nonempty in Hm; discriminate).
    split.
    + split; [contradiction|]. intros Hno. destruct (Hno x Hin).
      now apply matches_rule.
    + intros _. split; [exact Hin|now apply matches_rule].
  - apply last_None in L. split.
    + split; [|reflexivity]. intros _ l Hl Hr. apply matches_rule in Hr.
      assert (Hin : In l (List.filter (matches r) links))
        by (apply List.filter_In; auto).
      rewrite L in Hin. destruct Hin.
    + intros Hne. now destruct Hne.
Qed.

(** ** The filters *)

Lemma filterLinks_v1_loop_filter (acc links : list string) :
  filterLinks_v1_loop acc links = (acc ++ List.filter keeps_v1 links)%list.
Proof.
  revert acc. induction links as [|l links IH]; intros acc;
    cbn [filterLinks_v1_loop List.filter]; [now rewrite List.app_nil_r|].
  unfold keeps_v1 at 1.
  destruct (strings.HasSuffix l ".dsc"); cbn [orb].
  { rewrite IH, <- List.app_assoc. reflexivity. }
  destruct (strings.HasSuffix l ".orig.tar.xz"); cbn [orb].
  { rewrite IH, <- List.app_assoc. reflexivity. }
  destruct (strings.HasSuffix l ".debian.tar.xz").
  { rewrite IH, <- List.app_assoc. reflexivity. }
  apply IH.
Qed.

Lemma keeps_v1_keeps (l : string) :
  keeps_v1 l = keeps l && negb (strings.HasSuffix l ".orig.tar.gz").
Proof.
  unfold keeps_v1, keeps. cbn [existsb matches]. rewrite orb_false_r.
  destruct (strings.HasSuffix l ".orig.tar.gz") eqn:Egz; cbn [negb];
    [|now rewrite orb_false_r, andb_true_r, orb_assoc].
  rewrite andb_false_r. apply HasSuffix_iff in Egz.
  destruct (strings.HasSuffix l ".dsc") eqn:E1;
    [apply HasSuffix_iff in E1; clash|].
  destruct (strings.HasSuffix l ".orig.tar.xz") eqn:E2;
    [apply HasSuffix_iff in E2; clash|].
  destruct (strings.HasSuffix l ".debian.tar.xz") eqn:E3;
    [apply HasSuffix_iff in E3; clash|].
  reflexivity.
Qed.

(** X6. The filter of the first version keeps what the filter of the
    intermediate version keeps, less the hrefs that end in
    [.orig.tar.gz]: everything it keeps the later filter keeps, and the
    two agree on a list with no such href. *)
Theorem filterLinks_v1_subset (links : list string) :
  filterLinks_v1 links
  = List.filter (fun l => negb (strings.HasSuffix l ".orig.tar.gz"))
      (filterLinks links)
  ∧ (∀ l, In l (filterLinks_v1 links) → In l (filterLinks links))
  ∧ ((∀ l, In l links → strings.HasSuffix l ".orig.tar.gz" = false) →
     filterLinks_v1 links = filterLinks links).
Proof.
  assert (H1 : filterLinks_v1 links = List.filter keeps_v1 links)
    by (unfold filterLinks_v1; now rewrite filterLinks_v1_loop_filter).
  assert (H2 : filterLinks links = List.filter keeps links)
    by (unfold filterLinks; now rewrite filterLinks_loop_filter).
  assert (H3 : List.filter keeps_v1 links
               = List.filter (fun l => negb (strings.HasSuffix l ".orig.tar.gz"))
                   (List.filter keeps links)).
  { clear. induction links as [|l links IH]; cbn [List.filter]; [reflexivity|].
    rewrite keeps_v1_keeps. destruct (keeps l); cbn [andb List.filter].
    - destruct (negb _); now rewrite IH.
    - exact IH. }
  rewrite H1, H2. split; [exact H3|]. split.
  - intros l Hl. rewrite H3 in Hl. now apply List.filter_In in Hl as [Hl _].
  - intros Hno. rewrite H3. clear -Hno.
    induction links as [|l links IH]; cbn [List.filter]; [reflexivity|].
    destruct (keeps l); cbn [List.filter].
    + rewrite (Hno l) by now left. cbn [negb]. f_equal.
      apply IH. intros x Hx. apply Hno. now right.
    + apply IH. intros x Hx. apply Hno. now right.
Qed.

Lemma filterLinks_v1_subset_witness :
  filterLinks_v1 ["a.dsc"; "a.orig.tar.xz"] = filterLinks ["a.dsc"; "a.orig.tar.xz"].
Proof.
  apply (proj2 (proj2 (filterLinks_v1_subset ["a.dsc"; "a.orig.tar.xz"]))).
  intros l [<- | [<- | []]]; reflexivity.
Defined.

(** X7. Filtering is idempotent and works link by link: filtering a
    filtered list changes nothing, and the filter of two lists put
    together is the two filtered lists put together. *)
Theorem filterLinks_idempotent (a b : list string) :
  filterLinks (filterLinks a) = filterLinks a
  ∧ filterLinks (a ++ b) = (filterLinks a ++ filterLinks b)%list.
Proof.
  unfold filterLinks. rewrite !filterLinks_loop_filter. cbn [List.app].
  split.
  - now apply filter_filter_imp.
  - apply List.filter_app.
Qed.

Lemma fillFromLinks_absent_iff_witness :
  In (role_href Description (fillFromLinks new_dpkgSrc ["x"; "a.dsc"])) ["x"; "a.dsc"]
  ∧ rule Description (role_href Description (fillFromLinks new_dpkgSrc ["x"; "a.dsc"])).
Proof.
  apply (proj2 (proj2 (fillFromLinks_absent_iff ["x"; "a.dsc"] Description))).
  unfold absent. cbn. discriminate.
Defined.

(** ** The directory step and [download], further *)

Section DownloadMore.

Context `{!NetURL, !Env}.


(** The cases of [download], one per way through its body. *)
Lemma download_inv (u : URL) (pkg : string) (st : State)
    (P : Outcome string → Prop) :
  let path := (buildPath u pkg).1 in
  let dir := (buildPath u pkg).2 in
  let line := EvLog (downloading_line u pkg) in
  let st1 := entered u pkg st in
  (is_Some (fs st !! dir) → is_Some (fs st !! path) →
   P (Ok path (mkState (fs st)
                 (trace st ++ [line; EvLog "File already exists, skipping."])))) →
  (∀ e, fs st !! dir = None → mkdir_err dir = Some e →
   P (Fatal ("Error creating directory " ++ dir ++ ": " ++ e)
        (mkState (fs st) (trace st ++ [line; EvMkdir dir])))) →
  (fs st !! dir = None → mkdir_err dir = None →
   is_Some (<[dir := Dir]> (fs st) !! path) →
   P (Ok path (mkState (<[dir := Dir]> (fs st))
                 (trace st ++ [line; EvMkdir dir;
                               EvLog "File already exists, skipping."])))) →
  (∀ e, dir_ready st dir → fs st1 !! path = None → create_err path = Some e →
   P (Fatal ("Error creating file " ++ path ++ ": " ++ e)
        (mkState (fs st1) (trace st1 ++ [EvCreate path])))) →
  (∀ e, dir_ready st dir → fs st1 !! path = None → create_err path = None →
   http (URL_String u) = inl e →
   P (Fatal ("Error downloading file " ++ URL_String u ++ ": " ++ e)
        (mkState (<[path := File ""]> (fs st1))
           (trace st1 ++ [EvCreate path; EvGet (URL_String u)])))) →
  (∀ resp, dir_ready st dir → fs st1 !! path = None → create_err path = None →
   http (URL_String u) = inr resp →
   P (let st2 :=
        mkState (<[path := File (Body resp)]> (<[path := File ""]> (fs st1)))
          (trace st1 ++ [EvCreate path; EvGet (URL_String u)]) in
      match ReadErr resp with
      | Some e =>
          Fatal ("Error downloading file " ++ URL_String u ++ " to "
                 ++ path ++ ": " ++ e) st2
      | None => Ok path st2
      end)) →
  P (download u pkg st).
Proof.
  intros path dir line st1 Hskip Hmk Hskip' Hcr Hget Hcopy.
  subst path dir line st1.
  assert (Hnew : dir_ready st (buildPath u pkg).2 →
                 fs (entered u pkg st) !! (buildPath u pkg).1 = None →
                 P (download u pkg st)).
  { intros Hready Hp.
    pose proof (download_new u pkg st) as Hn. cbv zeta in Hn.
    rewrite Hn by assumption. clear Hn.
    destruct (create_err _) as [e|] eqn:Hc; [now apply Hcr|].
    destruct (http _) as [e|resp] eqn:Hh; [now apply Hget|].
    now apply Hcopy. }
  destruct (fs st !! (buildPath u pkg).2) as [n|] eqn:Hd.
  - destruct (fs st !! (buildPath u pkg).1) as [m|] eqn:Hp.
    + rewrite download_skip by eauto. apply Hskip; eauto.
    + apply Hnew; [left; eauto|]. unfold entered. now rewrite Hd.
  - destruct (mkdir_err (buildPath u pkg).2) as [e|] eqn:Hm.
    + rewrite (download_mkdir_fatal u pkg st e) by auto. now apply Hmk.
    + destruct (<[(buildPath u pkg).2 := Dir]> (fs st) !! (buildPath u pkg).1)
        as [m|] eqn:Hp.
      * destruct (decide ((buildPath u pkg).1 = (buildPath u pkg).2)) as [Heq|Hne].
        -- rewrite download_directory by auto.
           apply Hskip'; auto; rewrite Hp; eauto.
        -- pose proof Hp as Hp'. rewrite lookup_insert_ne in Hp' by congruence.
           rewrite download_skip_mkdir, Hm by eauto.
           apply Hskip'; auto; rewrite Hp; eauto.
      * apply Hnew; [now right|]. unfold entered. now rewrite Hd.
Qed.

Lemma entered_fs (u : URL) (pkg : string) (st : State) :
  fs st ⊆ fs (entered u pkg st)
  ∧ ∀ q, q ≠ (buildPath u pkg).2 → fs (entered u pkg st) !! q = fs st !! q.
Proof.
  unfold entered. destruct (fs st !! (buildPath u pkg).2) eqn:Hd; cbn [fs].
  - split; [reflexivity|auto].
  - split; [now apply insert_subseteq|]. intros q Hq. now apply lookup_insert_ne.
Qed.

(** X9. Whatever its outcome, [download] leaves every file and directory
    that was on disk as it was (it never overwrites or truncates an
    existing file), and the only paths it can add are the destination
    and the package directory. *)
Theorem download_preserves_disk (u : URL) (pkg : string) (st : State) :
  fs st ⊆ fs (final_state (download u pkg st))
  ∧ ∀ q, q ≠ (buildPath u pkg).1 → q ≠ (buildPath u pkg).2 →
      fs (final_state (download u pkg st)) !! q = fs st !! q.
Proof.
  destruct (entered_fs u pkg st) as [Hsub Hframe].
  apply (download_inv u pkg st
           (fun o => fs st ⊆ fs (final_state o)
                     ∧ ∀ q, q ≠ (buildPath u pkg).1 → q ≠ (buildPath u pkg).2 →
                         fs (final_state o) !! q = fs st !! q));
    cbn [final_state fs].
  - intros _ _. split; [reflexivity|auto].
  - intros e _ _. split; [reflexivity|auto].
  - intros Hd _ _. split; [now apply insert_subseteq|].
    intros q _ Hq. now apply lookup_insert_ne.
  - intros e _ _ _. split; [exact Hsub|]. intros q _ Hq. now apply Hframe.
  - intros e _ Hp _ _. split.
    + etrans; [exact Hsub|]. now apply insert_subseteq.
    + intros q Hq Hq'. rewrite lookup_insert_ne by congruence. now apply Hframe.
  - intros resp _ Hp _ _. cbv zeta.
    assert (Hgoal : fs st ⊆ <[(buildPath u pkg).1 := File (Body resp)]>
                              (<[(buildPath u pkg).1 := File ""]> (fs (entered u pkg st)))
                    ∧ ∀ q, q ≠ (buildPath u pkg).1 → q ≠ (buildPath u pkg).2 →
                        <[(buildPath u pkg).1 := File (Body resp)]>
                          (<[(buildPath u pkg).1 := File ""]> (fs (entered u pkg st))) !! q
                        = fs st !! q).
    { rewrite insert_insert_eq. split.
      - etrans; [exact Hsub|]. now apply insert_subseteq.
      - intros q Hq Hq'. rewrite lookup_insert_ne by congruence. now apply Hframe. }
    destruct (ReadErr resp); exact Hgoal.
Qed.


End DownloadMore.

(** ** The intermediate and the first version *)

Section OlderVersions.

Context `{!NetURL, !HTMLTokenizer, !Env}.

Lemma download_000_forget (u : URL) (pkg : string) (st : State) :
  download_000 u pkg st = forget (download u pkg st).
Proof.
  unfold download_000, download.
  destruct (buildPath u pkg) as [path dir].
  unfold ensureDirExists, fileExists, os_Stat, os_Mkdir, os_Create, http_Get,
    io_Copy, log_Print, log_Fatalf, emit, bind, ret.
  cbn [fs trace].
  repeat match goal with
         | |- context [match ?x with _ => _ end] =>
             lazymatch x with
             | context [match _ with _ => _ end] => fail
             | _ => destruct x; cbn [fs trace forget]
             end
         end; reflexivity.
Qed.

(** X11. [download] of the intermediate version does what [download] of
    the final version does, on the same state: the same messages, the
    same requests, the same files, and death in the same cases with the
    same message; it only returns no path. *)
Theorem download_000_same (u : URL) (pkg : string) (st : State) :
  download_000 u pkg st = forget (download u pkg st)
  ∧ final_state (download_000 u pkg st) = final_state (download u pkg st)
  ∧ ((∃ st', download_000 u pkg st = Ok tt st')
     ↔ ∃ st', download u pkg st = Ok (buildPath u pkg).1 st').
Proof.
  rewrite download_000_forget.
  destruct (download_outcome u pkg st) as (_ & _ & _ & _ & Hret).
  destruct (download u pkg st) as [p st'|msg st'] eqn:E; cbn [forget final_state].
  - rewrite (Hret p st' eq_refl). repeat split; eauto.
  - repeat split; intros [st'' Hst]; discriminate Hst.
Qed.

Lemma loop_000_ok (base : URL) (pkg : string) (links : list string)
    (st st' : State) :
  commandFetch_000_loop base pkg links st = Ok tt st' →
  ∃ us, Forall2 (fun l u => resolve_href (Some base) l = Some u) links us
        ∧ download_lines (trace st')
          = (download_lines (trace st)
             ++ map (fun u => downloading_line u pkg) us)%list
        ∧ Forall (fun u => is_Some (fs st' !! (buildPath u pkg).1)) us.
Proof.
  revert st. induction links as [|l links IH]; intros st E;
    cbn [commandFetch_000_loop] in E.
  - apply Ok_inj in E as [_ <-]. exists []. cbn [map].
    rewrite List.app_nil_r. auto.
  - destruct (Parse l) as [e|v] eqn:Hp; [discriminate E|].
    set (u := if negb (IsAbs v) then ResolveReference base v else v) in *.
    assert (Hres : resolve_href (Some base) l = Some u).
    { unfold resolve_href. rewrite Hp. subst u. now destruct (IsAbs v). }
    unfold bind in E. rewrite download_000_forget in E.
    destruct (download u pkg st) as [p st1|] eqn:Hdl; [|discriminate E].
    cbn [forget] in E.
    destruct (IH st1 E) as (us & Hus & Hl & Hfs).
    destruct (download_trace _ _ _ _ _ Hdl) as (Hl1 & _).
    destruct (download_ok_present _ _ _ _ _ Hdl) as (Hp1 & _ & _).
    exists (u :: us). split; [now constructor|]. split.
    + rewrite Hl, Hl1, <- List.app_assoc. reflexivity.
    + constructor; [|exact Hfs].
      destruct Hp1 as [n Hn]. exists n.
      clear -Hn E. revert st1 E Hn.
      induction links as [|l' links IH']; intros st1 E Hn;
        cbn [commandFetch_000_loop] in E.
      * apply Ok_inj in E as [_ <-]. exact Hn.
      * destruct (Parse l') as [e|v']; [discriminate E|].
        unfold bind in E. rewrite download_000_forget in E.
        destruct (download _ pkg st1) as [p2 st2|] eqn:Hd2; [|discriminate E].
        cbn [forget] in E. apply (IH' st2 E).
        destruct (download_ok_present _ _ _ _ _ Hd2) as (_ & _ & Hsub).
        eapply lookup_weaken; eauto.
Qed.

Lemma loop_000_cooperative (base : URL) (pkg : string) (links : list string)
    (st : State) :
  cooperative →
  Forall (fun l => is_Some (resolve_href (Some base) l)) links →
  ∃ st', commandFetch_000_loop base pkg links st = Ok tt st'.
Proof.
  intros Hco Hall. revert st.
  induction Hall as [|l links [u Hu] _ IH]; intros st;
    cbn [commandFetch_000_loop]; [eexists; reflexivity|].
  unfold resolve_href in Hu. destruct (Parse l) as [e|v]; [discriminate Hu|].
  unfold bind. rewrite download_000_forget.
  destruct (download_cooperative
              (if negb (IsAbs v) then ResolveReference base v else v) pkg st Hco)
    as (st1 & ->).
  cbn [forget]. apply IH.
Qed.

(** X12. The loop of the intermediate [commandFetch] downloads every
    link it is given, in the order of the list and with repetitions (two
    links of one role are both downloaded), each resolved against the base
    URL; it returns whenever the links resolve and the environment raises
    no error, and then the destination of every link is on disk. *)
Theorem commandFetch_000_downloads_all (base : URL) (pkg : string)
    (links : list string) (st : State) :
  (cooperative →
   Forall (fun l => is_Some (resolve_href (Some base) l)) links →
   ∃ st', commandFetch_000_loop base pkg links st = Ok tt st')
  ∧ ∀ st', commandFetch_000_loop base pkg links st = Ok tt st' →
      ∃ us, Forall2 (fun l u => resolve_href (Some base) l = Some u) links us
            ∧ download_lines (trace st')
              = (download_lines (trace st)
                 ++ map (fun u => downloading_line u pkg) us)%list
            ∧ Forall (fun u => is_Some (fs st' !! (buildPath u pkg).1)) us.
Proof.
  split; [apply loop_000_cooperative|apply loop_000_ok].
Qed.

Lemma loop_v1_run (base : URL) (links : list string) (st : State) :
  ∃ new, added st (commandFetch_v1_loop base links st) new
         ∧ fs (final_state (commandFetch_v1_loop base links st)) = fs st
         ∧ gets new = [] ∧ creates new = [] ∧ mkdirs new = [] ∧ execs new = [].
Proof.
  unfold added. revert st. induction links as [|l links IH]; intros st;
    cbn [commandFetch_v1_loop].
  - exists []. cbn. rewrite List.app_nil_r. auto 6.
  - destruct (Parse l) as [e|v].
    + exists []. cbn. rewrite List.app_nil_r. auto 6.
    + unfold bind, download_v1, log_Print, emit.
      destruct (IH (mkState (fs st)
                      (trace st ++ [EvLog ("Downloading "
                         ++ URL_String (if negb (IsAbs v)
                                        then ResolveReference base v else v)
                         ++ "...")])))
        as (new & Ht & Hfs & Hg & Hc & Hm & He).
      cbn [fs trace] in *. eexists. split.
      { rewrite Ht, <- List.app_assoc. reflexivity. }
      rewrite gets_app, creates_app, execs_app. unfold mkdirs in *.
      rewrite omap_app, Hg, Hc, Hm, He. cbn. auto 6.
Qed.

(** X13. The first version of [commandFetch] never writes: whatever the
    arguments and the page, the disk is afterwards as it was, no file or
    directory is created and no subprocess is started, and the only
    network request it can make is the one for the index page. *)
Theorem commandFetch_v1_read_only (c : Context) (st : State) :
  ∃ new,
    added st (commandFetch_v1 c st) new
    ∧ fs (final_state (commandFetch_v1 c st)) = fs st
    ∧ creates new = [] ∧ mkdirs new = [] ∧ execs new = []
    ∧ (gets new = []
       ∨ ∃ baseURL, Parse debianTestingBaseURL = inr baseURL
                    ∧ gets new
                      = [URL_String baseURL ++ PathEscape (hd "" (Args c))]).
Proof.
  assert (Hgen : ∀ o, commandFetch_v1 c st = o →
            ∃ new, trace (final_state o) = (trace st ++ new)%list
                   ∧ fs (final_state o) = fs st
                   ∧ creates new = [] ∧ mkdirs new = [] ∧ execs new = []
                   ∧ (gets new = []
                      ∨ ∃ baseURL, Parse debianTestingBaseURL = inr baseURL
                                   ∧ gets new
                                     = [URL_String baseURL
                                        ++ PathEscape (hd "" (Args c))])).
  { intros o E.
    unfold commandFetch_v1, validateArgs, http_Get, log_Print in E.
    unfold bind, emit, ret, log_Fatalf in E.
    cbn [fs trace] in E.
    destruct (0 <? NArg c)%nat; cbn [negb] in E.
    2:{ subst o. exists []. cbn. rewrite List.app_nil_r. auto 7. }
    destruct (Parse debianTestingBaseURL) as [e|baseURL] eqn:Hp.
    { subst o. eexists. cbn [final_state trace fs].
      split; [reflexivity|]. cbn. auto 7. }
    cbn [fs trace] in E.
    destruct (http _) as [e|resp].
    { subst o. eexists. cbn [final_state trace fs].
      rewrite <- !List.app_assoc. split; [reflexivity|]. cbn.
      split; [reflexivity|]. repeat (split; [reflexivity|]).
      right. eauto. }
    match type of E with
    | match commandFetch_v1_loop _ _ ?s with _ => _ end = _ => set (st1 := s) in *
    end.
    destruct (loop_v1_run baseURL (filterLinks_v1 (getLinks (Body resp))) st1)
      as (new & Ht & Hfs & Hg & Hc & Hm & He).
    unfold added in Ht.
    destruct (commandFetch_v1_loop _ _ st1) as [[] st2|msg st2];
      subst o; cbn [final_state] in *; subst st1; cbn [fs trace] in *;
      (eexists; split;
       [rewrite Ht, <- !List.app_assoc; reflexivity|]);
      rewrite !creates_app, !gets_app, !execs_app; unfold mkdirs in *;
      rewrite !omap_app, Hg, Hc, Hm, He; cbn;
      (split; [assumption|]); repeat (split; [reflexivity|]);
      right; eauto. }
  exact (Hgen _ eq_refl).
Qed.

End OlderVersions.

(** ** [fetch], [extract] and the commands, further *)

Section PipelineMore.

Context `{!NetURL, !HTMLTokenizer, !Env}.

Lemma fetch_DscPath (d d' : dpkgSrc) (st st' : State) :
  fetch d st = Ok d' st' →
  ∃ u1, resolve_href (BaseURL d) (DSC d) = Some u1
        ∧ d' = set_DscPath (buildPath u1 (Name d)).1 d
        ∧ is_Some (fs st' !! (buildPath u1 (Name d)).1).
Proof.
  intros Hf.
  destruct (fetch_ok _ _ _ _ Hf)
    as (u1 & u2 & u3 & st1 & st2 & R1 & R2 & R3 & D1 & D2 & D3 & ->).
  exists u1. split; [exact R1|]. split.
  - destruct (Orig d =? DSC d) eqn:Eo.
    + apply String.eqb_eq in Eo. rewrite Eo, R1 in R3. now injection R3 as <-.
    + destruct (Debian d =? DSC d) eqn:Ed; [|reflexivity].
      apply String.eqb_eq in Ed. rewrite Ed, R1 in R2. now injection R2 as <-.
  - destruct (download_ok_present _ _ _ _ _ D1) as ([n Hn] & _ & _).
    destruct (download_ok_present _ _ _ _ _ D2) as (_ & _ & S2).
    destruct (download_ok_present _ _ _ _ _ D3) as (_ & _ & S3).
    exists n. eapply lookup_weaken; [|exact S3].
    eapply lookup_weaken; [exact Hn|exact S2].
Qed.

(** X14. When [fetch] returns, the only field of the record it has
    changed is the local path of the description file, which is the
    destination of the description href (also when another role holds the
    same href), and that path is on disk. *)
Theorem fetch_sets_only_DscPath (d d' : dpkgSrc) (st st' : State) :
  fetch d st = Ok d' st' →
  Name d' = Name d ∧ DSC d' = DSC d ∧ Orig d' = Orig d ∧ Debian d' = Debian d
  ∧ BaseURL d' = BaseURL d
  ∧ ∃ u1, resolve_href (BaseURL d) (DSC d) = Some u1
          ∧ DscPath d' = (buildPath u1 (Name d)).1
          ∧ is_Some (fs st' !! DscPath d').
Proof.
  intros Hf. destruct (fetch_DscPath _ _ _ _ Hf) as (u1 & R1 & -> & Hfs).
  cbn [set_DscPath Name DSC Orig Debian BaseURL DscPath].
  repeat (split; [reflexivity|]). exists u1. auto.
Qed.



(** X16. [commandBuild] is a stub: whatever its arguments it returns,
    having only logged; it makes no network request, creates nothing,
    starts nothing and leaves the disk alone; and it returns [nil]
    exactly when an argument is given. *)
Theorem commandBuild_stub (c : Context) (st : State) :
  ∃ r new,
    commandBuild c st = Ok r (mkState (fs st) (trace st ++ new))
    ∧ gets new = [] ∧ creates new = [] ∧ mkdirs new = [] ∧ execs new = []
    ∧ (r = None ↔ Args c ≠ []).
Proof.
  unfold commandBuild, validateArgs, NArg.
  destruct (Args c) as [|name rest]; cbn [List.length Nat.ltb Nat.leb negb hd].
  - exists (Some "fetch: no package name provided"), [EvLog "build"].
    split; [reflexivity|]. repeat (split; [reflexivity|]).
    split; [discriminate|]. intros Hne. now destruct Hne.
  - exists None, [EvLog "build"; EvLog ("Building " ++ name)].
    split.
    + unfold bind, log_Print, emit, ret. cbn [fs trace].
      now rewrite <- List.app_assoc.
    + repeat (split; [reflexivity|]). split; [discriminate|reflexivity].
Qed.

Lemma added_bind {A B} (m : M A) (k : A → M B) (st : State) :
  (∃ n1, added st (m st) n1) →
  (∀ a st1, m st = Ok a st1 → ∃ n2, added st1 (k a st1) n2) →
  ∃ n, added st (bind m k st) n.
Proof.
  unfold added, bind. intros [n1 Hn1] Hk.
  destruct (m st) as [a st1|msg st1]; cbn [final_state] in *.
  - destruct (Hk a st1 eq_refl) as [n2 Hn2]. exists (n1 ++ n2)%list.
    now rewrite Hn2, Hn1, List.app_assoc.
  - now exists n1.
Qed.

Lemma fetch_body_added (d : dpkgSrc) (l : string) (st : State) :
  ∃ n, added st (fetch_body d l st) n.
Proof.
  unfold fetch_body. apply added_bind.
  - unfold linkURL_of, added. exists [].
    destruct (Parse l) as [e|v]; [now rewrite List.app_nil_r|].
    destruct (negb (IsAbs v)); [destruct (BaseURL d)|];
      cbn [final_state]; now rewrite List.app_nil_r.
  - intros u st1 Hl. apply linkURL_of_ok in Hl as [_ ->].
    apply added_bind.
    + destruct (download_outcome u (Name d) st) as (new & Ht & _).
      eexists. exact Ht.
    + intros p st2 _. exists []. unfold added.
      destruct (l =? DSC d); cbn [final_state]; now rewrite List.app_nil_r.
Qed.

Lemma fetch_loop_added (d : dpkgSrc) (links : list string) (st : State) :
  ∃ n, added st (fetch_loop d links st) n.
Proof.
  revert d st. induction links as [|l links IH]; intros d st; cbn [fetch_loop].
  - exists []. unfold added. cbn. now rewrite List.app_nil_r.
  - apply added_bind; [apply fetch_body_added|]. intros d1 st1 _. apply IH.
Qed.

Lemma extract_added (d : dpkgSrc) (st : State) :
  ∃ n, added st (extract d st) n.
Proof.
  unfold extract, added.
  destruct (filepath.Split (DscPath d)) as [dir0 dscFile].
  unfold bind at 1. unfold emit. cbn [fs trace].
  destruct (StartErr _) as [e|].
  - eexists. cbn [log_Fatalf final_state trace]. reflexivity.
  - unfold bind. rewrite log_lines_run. cbn [fs trace].
    destruct (WaitErr _) as [e|]; unfold log_Fatalf, ret;
      cbn [final_state trace]; rewrite <- List.app_assoc; eexists; reflexivity.
Qed.

(** X17. [commandFetch] with a package name: the first thing it does to
    the outside world is the request for the index page, whose URL is the
    base URL followed by the escaped name, and nothing touches the disk
    before it; when that request fails the process dies with the disk
    untouched; and the command never returns an error value, it returns
    [nil] or dies. *)
Theorem commandFetch_index_first (name : string) (rest : list string)
    (st : State) (baseURL : URL) :
  Parse debianTestingBaseURL = inr baseURL →
  (∃ new,
     added st (commandFetch (mkContext (name :: rest)) st)
       (EvLog ("Fetching " ++ name)
        :: EvLog ("Downloading " ++ (URL_String baseURL ++ PathEscape name) ++ "...")
        :: EvGet (URL_String baseURL ++ PathEscape name) :: new))
  ∧ (∀ r st', commandFetch (mkContext (name :: rest)) st = Ok r st' → r = None)
  ∧ (∀ e, http (URL_String baseURL ++ PathEscape name) = inl e →
       commandFetch (mkContext (name :: rest)) st
       = Fatal ("Error getting " ++ (URL_String baseURL ++ PathEscape name)
                ++ ": " ++ e)
           (mkState (fs st)
              (trace st
               ++ [EvLog ("Fetching " ++ name);
                   EvLog ("Downloading "
                          ++ (URL_String baseURL ++ PathEscape name) ++ "...");
                   EvGet (URL_String baseURL ++ PathEscape name)]))).
Proof.
  intros Hp.
  set (index := URL_String baseURL ++ PathEscape name).
  set (st1 := mkState (fs st)
                (trace st ++ [EvLog ("Fetching " ++ name);
                              EvLog ("Downloading " ++ index ++ "...");
                              EvGet index])).
  assert (Hrun : commandFetch (mkContext (name :: rest)) st
                 = match http index with
                   | inl e => Fatal ("Error getting " ++ index ++ ": " ++ e) st1
                   | inr resp =>
                       (do dp <- fetch
                                   (set_BaseURL (Some baseURL)
                                      (set_Name name
                                         (fillFromLinks new_dpkgSrc
                                            (getLinks (Body resp))))) ;
                        run extract dp ; ret None) st1
                   end).
  { unfold commandFetch, validateArgs, NArg.
    cbn [Args List.length Nat.ltb Nat.leb negb hd]. rewrite Hp.
    unfold bind at 1. unfold log_Print at 1. unfold emit at 1.
    unfold bind at 1. unfold log_Print at 1. unfold emit at 1. cbn [fs trace].
    unfold bind at 1. unfold http_Get. unfold bind at 1. unfold emit at 1.
    unfold ret at 1. cbn [fs trace]. fold index.
    subst st1. rewrite <- !List.app_assoc. cbn [List.app].
    destruct (http index); reflexivity. }
  rewrite Hrun. split; [|split].
  - destruct (http index) as [e|resp].
    + exists []. unfold added. subst st1. cbn [final_state trace]. reflexivity.
    + match goal with |- ∃ new, added st (?m st1) _ =>
        assert (Hadd : ∃ n, added st1 (m st1) n)
      end.
      { apply added_bind; [apply fetch_loop_added|]. intros dp st2 _.
        apply added_bind; [apply extract_added|]. intros [] st3 _.
        exists []. unfold added. cbn. now rewrite List.app_nil_r. }
      destruct Hadd as [n Hn]. exists n. unfold added in *. rewrite Hn.
      subst st1. cbn [trace]. now rewrite <- List.app_assoc.
  - intros r st'. destruct (http index) as [e|resp]; [discriminate|].
    unfold bind. destruct (fetch _ st1) as [dp st2|]; [|discriminate].
    destruct (extract dp st2) as [[] st3|]; [|discriminate].
    unfold ret. intros E. now apply Ok_inj in E as [<- _].
  - intros e He. now rewrite He.
Qed.

End PipelineMore.

(** ** The further theorems on concrete worlds *)

Section MoreRuns.

Import Sample.

Lemma fetch_sets_only_DscPath_witness :
  ∃ d' st', @fetch RefURL.lib up foo empty_state = Ok d' st'
            ∧ Name d' = "foo" ∧ DSC d' = "foo_1.0.dsc"
            ∧ DscPath d' = "foo/foo_1.0.dsc".
Proof.
  destruct (@fetch RefURL.lib up foo empty_state) as [d' st'|] eqn:E;
    [|vm_compute in E; discriminate E].
  exists d', st'. split; [reflexivity|].
  destruct (@fetch_sets_only_DscPath RefURL.lib up foo d' empty_state st' E)
    as (Hn & Hd & _ & _ & _ & u1 & Hr & Hp & _).
  split; [exact Hn|]. split; [exact Hd|].
  vm_compute in Hr. injection Hr as <-. exact Hp.
Defined.


Lemma commandFetch_index_first_witness :
  ∃ st', @commandFetch RefURL.lib anchors_per_line net_down
           (mkContext ["foo"]) empty_state
         = Fatal ("Error getting https://packages.debian.org/buster/foo"
                  ++ ": dial tcp: connection refused") st'
         ∧ fs st' = ∅
         ∧ gets (trace st') = ["https://packages.debian.org/buster/foo"].
Proof.
  eexists. split.
  - apply (proj2 (proj2 (@commandFetch_index_first RefURL.lib anchors_per_line
                           net_down "foo" [] empty_state base eq_refl))
             "dial tcp: connection refused").
    reflexivity.
  - split; reflexivity.
Defined.

Lemma commandFetch_000_downloads_all_witness :
  ∃ st', @commandFetch_000_loop RefURL.lib up base "foo"
           ["a_1.dsc"; "a_2.dsc"] empty_state = Ok tt st'
         ∧ gets (trace st')
           = ["https://packages.debian.org/buster/a_1.dsc";
              "https://packages.debian.org/buster/a_2.dsc"].
Proof.
  destruct (proj1 (@commandFetch_000_downloads_all RefURL.lib up base "foo"
                     ["a_1.dsc"; "a_2.dsc"] empty_state)) as (st' & E).
  - repeat split; intros; eexists; split; reflexivity.
  - repeat constructor; eexists; reflexivity.
  - exists st'. split; [exact E|].
    vm_compute in E. injection E as <-. reflexivity.
Defined.

End MoreRuns.
